(** * gormxray: X-Ray tracing hooks for GORM operations

    A shallow embedding of [plugin.go] and [options.go]: the operation
    classifier [dbOperation] with the four regular expressions it uses, the
    plugin configuration and its functional options, the hook registration
    loop of [Initialize], and the [before] / [after] hooks run against a
    model of the GORM statement and of the X-Ray span interface. *)

From Stdlib Require Import Ascii String List ZArith Lia Bool Arith.
From stdpp Require Import base option gmap strings.
From Equations Require Import Equations.
Import ListNotations.

Local Open Scope string_scope.
Local Open Scope list_scope.

(** ** Byte strings

    A Go string is a byte sequence.  The regular expressions of the program
    only name ASCII bytes, and a UTF-8 continuation or lead byte is never an
    ASCII byte, so matching byte by byte agrees with matching rune by rune:
    a class such as [.] or [[^\n]] accepts every byte of a multi-byte rune. *)

Definition bytes := list ascii.

Definition newline : ascii := "010"%char.

Module Regexp.

(** *** Syntax: the fragment of RE2 that [plugin.go] uses *)

Inductive regex : Type :=
| Lit (c : ascii)                 (* one literal byte *)
| Class (p : ascii -> bool)       (* one byte of a character class *)
| BeginText                       (* [^] without the [m] flag *)
| EndLine                         (* [$] under the [m] flag *)
| Cat (r1 r2 : regex)
| Alt (r1 r2 : regex)
| StarLazy (p : ascii -> bool)    (* [c*?] for a class [c] *)
| StarGreedy (p : ascii -> bool). (* [c*] for a class [c] *)

(** [c+] is [cc*]. *)
Definition PlusGreedy (p : ascii -> bool) : regex := Cat (Class p) (StarGreedy p).

(** *** Leftmost-first matching at one position

    The matcher is written in continuation-passing style: [k] receives the
    input left after the part matched so far, and [None] makes the matcher
    try its next alternative, in the order of preference of Go's [regexp]
    (first alternative first; a lazy star the shorter match first, a greedy
    star the longer first).  The flag says whether the position is the start
    of the text. *)

Definition cont := bool -> bytes -> option bytes.

Fixpoint star_lazy (p : ascii -> bool) (k : cont) (bot : bool) (s : bytes)
  : option bytes :=
  match k bot s with
  | Some r => Some r
  | None =>
      match s with
      | c :: s' => if p c then star_lazy p k false s' else None
      | [] => None
      end
  end.

Fixpoint star_greedy (p : ascii -> bool) (k : cont) (bot : bool) (s : bytes)
  : option bytes :=
  match s with
  | c :: s' =>
      if p c then
        match star_greedy p k false s' with
        | Some r => Some r
        | None => k bot s
        end
      else k bot s
  | [] => k bot s
  end.

Fixpoint rmatch (r : regex) (k : cont) (bot : bool) (s : bytes) : option bytes :=
  match r with
  | Lit c =>
      match s with
      | x :: s' => if Ascii.eqb x c then k false s' else None
      | [] => None
      end
  | Class p =>
      match s with
      | x :: s' => if p x then k false s' else None
      | [] => None
      end
  | BeginText => if bot then k bot s else None
  | EndLine =>
      match s with
      | [] => k bot s
      | x :: _ => if Ascii.eqb x newline then k bot s else None
      end
  | Cat r1 r2 => rmatch r1 (rmatch r2 k) bot s
  | Alt r1 r2 =>
      match rmatch r1 k bot s with
      | Some r => Some r
      | None => rmatch r2 k bot s
      end
  | StarLazy p => star_lazy p k bot s
  | StarGreedy p => star_greedy p k bot s
  end.

Definition accept : cont := fun _ rest => Some rest.

(** The match of [r] that starts at the head of [s], as the number of bytes
    it covers. *)
Definition match_here (r : regex) (bot : bool) (s : bytes) : option nat :=
  match rmatch r accept bot s with
  | Some rest => Some (length s - length rest)
  | None => None
  end.

(** *** [Regexp.ReplaceAllString] with the empty replacement

    Go's loop looks for the leftmost match from the search position, copies
    the bytes before it, drops the match and goes on behind it, one byte
    further when the match is empty.  Here the search is the walk itself:
    [skip] counts the bytes of the current match still to drop. *)

Fixpoint replace_go (r : regex) (bot : bool) (skip : nat) (s : bytes) : bytes :=
  match s with
  | [] => []
  | c :: s' =>
      match skip with
      | S n => replace_go r false n s'
      | O =>
          match match_here r bot s with
          | Some (S n) => replace_go r false n s'
          | Some O | None => c :: replace_go r false 0 s'
          end
      end
  end.

Definition ReplaceAllString_empty (r : regex) (src : bytes) : bytes :=
  replace_go r true 0 src.

(** *** [Regexp.FindString]: the text of the leftmost match, or [""]. *)

Fixpoint find_go (r : regex) (bot : bool) (s : bytes) : bytes :=
  match match_here r bot s with
  | Some n => firstn n s
  | None =>
      match s with
      | [] => []
      | _ :: s' => find_go r false s'
      end
  end.

Definition FindString (r : regex) (s : bytes) : bytes := find_go r true s.

End Regexp.

Import Regexp.

(** ** The regular expressions of [plugin.go] *)

Definition any_byte : ascii -> bool := fun _ => true.

(** [.] without the [s] flag: anything but a line feed. *)
Definition not_newline (c : ascii) : bool := negb (Ascii.eqb c newline).

(** [\s] in RE2 syntax is [[\t\n\f\r ]]. *)
Definition is_space (c : ascii) : bool :=
  let n := nat_of_ascii c in
  Nat.eqb n 9 || Nat.eqb n 10 || Nat.eqb n 12 || Nat.eqb n 13 || Nat.eqb n 32.

(** [[\s;]] *)
Definition is_space_or_semi (c : ascii) : bool :=
  is_space c || Ascii.eqb c ";".

(** [\w] is [[0-9A-Za-z_]]. *)
Definition is_word (c : ascii) : bool :=
  let n := nat_of_ascii c in
  (Nat.leb 48 n && Nat.leb n 57) || (Nat.leb 65 n && Nat.leb n 90)
  || (Nat.leb 97 n && Nat.leb n 122) || Nat.eqb n 95.

(** [^\w+] *)
Definition firstWordRegex : regex := Cat BeginText (PlusGreedy is_word).

(** [(?is)/\*.*?\*/]: [s] lets [.] match a line feed; [i] changes nothing,
    the expression has no letter. *)
Definition cCommentRegex : regex :=
  Cat (Lit "/") (Cat (Lit "*") (Cat (StarLazy any_byte) (Cat (Lit "*") (Lit "/")))).

(** [(?im)(?:--|#).*?$]: [m] makes [$] the end of a line. *)
Definition lineCommentRegex : regex :=
  Cat (Alt (Cat (Lit "-") (Lit "-")) (Lit "#")) (Cat (StarLazy not_newline) EndLine).

(** [^[\s;]*] *)
Definition sqlPrefixRegex : regex := Cat BeginText (StarGreedy is_space_or_semi).

(** ** [strings.ToLower]

    On a string of ASCII bytes Go takes the byte path: [A]-[Z] move by 32,
    every other byte stays.  [dbOperation] only calls it on a match of
    [\w+], which is ASCII (lemma [first_word_ascii] below). *)

Definition lower_byte (c : ascii) : ascii :=
  let n := nat_of_ascii c in
  if Nat.leb 65 n && Nat.leb n 90 then ascii_of_nat (n + 32) else c.

Definition ToLower (s : bytes) : bytes := map lower_byte s.

(** ** [dbOperation] *)

Definition dbOperation_bytes (query : bytes) : bytes :=
  let s := ReplaceAllString_empty cCommentRegex query in
  let s := ReplaceAllString_empty lineCommentRegex s in
  let s := ReplaceAllString_empty sqlPrefixRegex s in
  ToLower (FindString firstWordRegex s).

Definition dbOperation (query : string) : string :=
  string_of_list_ascii (dbOperation_bytes (list_ascii_of_string query)).

(** ** The classifier as the specification words it

    Remove block comments, remove line comments, strip the leading
    whitespace and semicolons, take the leading run of word characters,
    lower-case it. *)

Module Classifier.

(** The input behind the first [*/], when there is one. *)
Fixpoint after_close (s : bytes) : option bytes :=
  match s with
  | [] => None
  | c :: t =>
      match t with
      | d :: rest =>
          if Ascii.eqb c "*" && Ascii.eqb d "/" then Some rest else after_close t
      | [] => None
      end
  end.

(** The input behind a block comment that opens at the head of [s]. *)
Definition block_comment (s : bytes) : option bytes :=
  match s with
  | c :: d :: t =>
      if Ascii.eqb c "/" && Ascii.eqb d "*" then after_close t else None
  | _ => None
  end.

Definition inspect {A : Type} (a : A) : {b : A | a = b} := exist _ a eq_refl.

Equations? strip_block_comments (s : bytes) : bytes by wf (length s) lt :=
  strip_block_comments [] := [];
  strip_block_comments (c :: t) with inspect (block_comment (c :: t)) := {
    | exist _ (Some rest) _ => strip_block_comments rest;
    | exist _ None _ => c :: strip_block_comments t }.
Proof.
  clear strip_block_comments.
  assert (Hclose : forall u r, after_close u = Some r -> length r + 2 <= length u).
  { induction u as [|x u IH]; intros r; simpl; [discriminate|].
    destruct u as [|y v]; [discriminate|].
    destruct (Ascii.eqb x "*" && Ascii.eqb y "/").
    - intros [= <-]. simpl. lia.
    - intros H. apply IH in H. simpl in *. lia. }
  destruct t as [|d t]; [discriminate|].
  destruct (Ascii.eqb c "/" && Ascii.eqb d "*"); [|discriminate].
  apply Hclose in e. simpl. lia.
Qed.

(** Does a line comment open at the head of [s]? *)
Definition line_comment_start (s : bytes) : bool :=
  match s with
  | c :: t =>
      Ascii.eqb c "#"
      || match t with
         | d :: _ => Ascii.eqb c "-" && Ascii.eqb d "-"
         | [] => false
         end
  | [] => false
  end.

(** The input from the end of the current line on. *)
Fixpoint to_end_of_line (s : bytes) : bytes :=
  match s with
  | [] => []
  | c :: t => if Ascii.eqb c newline then s else to_end_of_line t
  end.

Equations? strip_line_comments (s : bytes) : bytes by wf (length s) lt :=
  strip_line_comments [] := [];
  strip_line_comments (c :: t) with line_comment_start (c :: t) := {
    | true => strip_line_comments (to_end_of_line t);
    | false => c :: strip_line_comments t }.
Proof.
  clear. induction t as [|x u IH]; simpl; [lia|].
  destruct (Ascii.eqb x newline); simpl; lia.
Qed.

Fixpoint strip_prefix (s : bytes) : bytes :=
  match s with
  | c :: t => if is_space_or_semi c then strip_prefix t else s
  | [] => []
  end.

Fixpoint leading_word (s : bytes) : bytes :=
  match s with
  | c :: t => if is_word c then c :: leading_word t else []
  | [] => []
  end.

Definition classify_bytes (s : bytes) : bytes :=
  map lower_byte
    (leading_word (strip_prefix (strip_line_comments (strip_block_comments s)))).

Definition classify (s : string) : string :=
  string_of_list_ascii (classify_bytes (list_ascii_of_string s)).

End Classifier.

(** ** Values and errors

    [value] stands for the [interface{}] values the hooks handle: what the
    instance side-channel holds, the bound parameters of a statement and the
    metadata attached to a span.  A [*xray.Segment] is a pointer, here the
    identifier of the segment, and may be nil. *)

Inductive value : Type :=
| VSegment (seg : option nat)
| VString (s : string)
| VInt (n : Z)
| VBool (b : bool).

(** Go compares error values by identity: the four sentinels below are the
    package-level variables the [switch] of the after hook names, and an
    error that wraps one of them is a different value. *)
Inductive error : Type :=
| ErrRecordNotFound                  (* gorm.ErrRecordNotFound *)
| ErrSkip                            (* driver.ErrSkip *)
| EOF                                (* io.EOF *)
| ErrNoRows                          (* sql.ErrNoRows *)
| ErrOther (msg : string)            (* an error of the driver or the host *)
| ErrWrap (msg : string) (e : error). (* fmt.Errorf with the verb %w *)

Definition error_message (e : error) : string :=
  match e with
  | ErrRecordNotFound => "record not found"
  | ErrSkip => "driver: skip fast-path; continue as if unimplemented"
  | EOF => "EOF"
  | ErrNoRows => "sql: no rows in result set"
  | ErrOther msg => msg
  | ErrWrap msg _ => msg
  end.

(** A call either returns or panics. *)
Inductive outcome (A : Type) : Type :=
| Ret (a : A)
| Panic (reason : string).
Arguments Ret {A} a.
Arguments Panic {A} reason.

(** ** The tracing collaborator (package [xray])

    The SDK is not part of the repository.  It is modelled as a recorder:
    the calls that took effect, in order, and the next free segment
    identifier.  [xr_faults] decides, from what was recorded so far, whether
    a metadata or error attachment panics instead of taking effect. *)

Inductive span_event : Type :=
| EvBeginSegment (seg : nat) (name : string)
| EvBeginSubsegment (seg parent : nat) (name : string)
| EvAddMetadata (seg : nat) (key : string) (v : value)
| EvAddError (seg : nat) (e : error)
| EvClose (seg : nat) (e : option error).

Record XRay : Type := {
  xr_next : nat;
  xr_log : list span_event;
  xr_faults : list span_event -> span_event -> bool
}.

(** A [context.Context]: the segment stored under [xray.ContextKey] and the
    values of the caller. *)
Record Context : Type := {
  ctx_segment : option nat;
  ctx_values : gmap string value
}.

Definition GetSegment (ctx : Context) : option nat := ctx_segment ctx.

Definition WithSegment (ctx : Context) (seg : nat) : Context :=
  {| ctx_segment := Some seg; ctx_values := ctx_values ctx |}.

(** ** The data-access host (package [gorm]) *)

Record Dialector : Type := {
  Explain : string -> list value -> outcome string
}.

(** [RowsAffected] is the field of the embedded [*DB], read through the
    statement as the hook does. *)
Record Stmt : Type := {
  Context_ : Context;
  SQL : string;
  Vars : list value;
  Table : string;
  RowsAffected : Z;
  Settings : gmap string value
}.

Record DB : Type := {
  Statement : Stmt;
  Error : option error;
  dialector : Dialector
}.

(** ** Hooks as state transformers

    A hook is a [func(tx *gorm.DB)]: it reads and updates the operation
    instance behind the pointer and calls into the tracing SDK. *)

Record State : Type := {
  st_tx : DB;
  st_xray : XRay
}.

Definition M (A : Type) : Type := State -> outcome A * State.

#[export] Instance M_ret : MRet M := fun A a s => (Ret a, s).

#[export] Instance M_bind : MBind M := fun A B f m s =>
  match m s with
  | (Ret a, s') => f a s'
  | (Panic reason, s') => (Panic reason, s')
  end.

(** [defer d] before [body]: [d] runs when [body] returns and when it
    panics; a panic of [body] goes on after [d]. *)
Definition defer {A : Type} (d : M unit) (body : M A) : M A := fun s =>
  match body s with
  | (r, s') =>
      match d s' with
      | (Ret _, s'') => (r, s'')
      | (Panic reason, s'') => (Panic reason, s'')
      end
  end.

(** A call into code that may panic and has no effect on the state. *)
Definition call {A : Type} (r : outcome A) : M A := fun s => (r, s).

Definition get_tx : M DB := fun s => (Ret (st_tx s), s).

Definition set_Context (ctx : Context) : M unit := fun s =>
  let tx := st_tx s in
  let stmt := Statement tx in
  (Ret tt,
   {| st_tx := {| Statement := {| Context_ := ctx; SQL := SQL stmt;
                                  Vars := Vars stmt; Table := Table stmt;
                                  RowsAffected := RowsAffected stmt;
                                  Settings := Settings stmt |};
                  Error := Error tx; dialector := dialector tx |};
      st_xray := st_xray s |}).

(** [tx.InstanceSet] and [tx.InstanceGet]: the settings of the instance. *)
Definition InstanceSet (key : string) (v : value) : M unit := fun s =>
  let tx := st_tx s in
  let stmt := Statement tx in
  (Ret tt,
   {| st_tx := {| Statement := {| Context_ := Context_ stmt; SQL := SQL stmt;
                                  Vars := Vars stmt; Table := Table stmt;
                                  RowsAffected := RowsAffected stmt;
                                  Settings := <[key := v]> (Settings stmt) |};
                  Error := Error tx; dialector := dialector tx |};
      st_xray := st_xray s |}).

Definition InstanceGet (key : string) : M (option value) := fun s =>
  (Ret (Settings (Statement (st_tx s)) !! key), s).

(** *** Calls into the SDK *)

Definition record (ev : span_event) (xr : XRay) : XRay :=
  {| xr_next := xr_next xr; xr_log := xr_log xr ++ [ev];
     xr_faults := xr_faults xr |}.

Definition fresh (xr : XRay) : XRay :=
  {| xr_next := S (xr_next xr); xr_log := xr_log xr;
     xr_faults := xr_faults xr |}.

Definition BeginSegment (ctx : Context) (name : string) : M (Context * nat) :=
  fun s =>
    let xr := st_xray s in
    let seg := xr_next xr in
    (Ret (WithSegment ctx seg, seg),
     {| st_tx := st_tx s;
        st_xray := record (EvBeginSegment seg name) (fresh xr) |}).

(** Without a segment in the context the SDK reports the missing context and
    returns a nil subsegment. *)
Definition BeginSubsegment (ctx : Context) (name : string)
  : M (Context * option nat) :=
  fun s =>
    match GetSegment ctx with
    | None => (Ret (ctx, None), s)
    | Some parent =>
        let xr := st_xray s in
        let seg := xr_next xr in
        (Ret (WithSegment ctx seg, Some seg),
         {| st_tx := st_tx s;
            st_xray := record (EvBeginSubsegment seg parent name) (fresh xr) |})
    end.

(** An attachment takes effect, or panics and leaves no trace. *)
Definition attach (ev : span_event) : M unit := fun s =>
  let xr := st_xray s in
  if xr_faults xr (xr_log xr) ev
  then (Panic "xray", s)
  else (Ret tt, {| st_tx := st_tx s; st_xray := record ev xr |}).

Definition AddMetadata (seg : nat) (key : string) (v : value) : M unit :=
  attach (EvAddMetadata seg key v).

Definition AddError (seg : nat) (e : error) : M unit :=
  attach (EvAddError seg e).

Definition Close (seg : nat) (e : option error) : M unit := fun s =>
  (Ret tt, {| st_tx := st_tx s; st_xray := record (EvClose seg e) (st_xray s) |}).

(** ** [plugin.go]: configuration and plugin *)

Record PluginConfig : Type := {
  ExcludeQueryVars : bool;
  ExcludeMetrics : bool;
  QueryFormatter : option (string -> outcome string)
}.

Record Plugin : Type := {
  excludeQueryVars : bool;
  excludeMetrics : bool;
  queryFormatter : option (string -> outcome string)
}.

(** ** [options.go] *)

Definition Option : Type := PluginConfig -> PluginConfig.

Definition WithExcludeQueryVars (exclude : bool) : Option := fun pc =>
  {| ExcludeQueryVars := exclude;
     ExcludeMetrics := ExcludeMetrics pc;
     QueryFormatter := QueryFormatter pc |}.

Definition WithQueryFormatter (formatter : option (string -> outcome string))
  : Option := fun pc =>
  {| ExcludeQueryVars := ExcludeQueryVars pc;
     ExcludeMetrics := ExcludeMetrics pc;
     QueryFormatter := formatter |}.

Definition NewPlugin (opts : list Option) : Plugin :=
  let cfg :=
    fold_left (fun cfg opt => opt cfg) opts
      {| ExcludeQueryVars := false; ExcludeMetrics := false;
         QueryFormatter := None |} in
  {| excludeQueryVars := ExcludeQueryVars cfg;
     excludeMetrics := ExcludeMetrics cfg;
     queryFormatter := QueryFormatter cfg |}.

Definition Name (p : Plugin) : string := "xraytracing".

Definition gormHookFunc : Type := M unit.

(** ** The hooks *)

Definition xray_subsegment : string := "xray_subsegment".

Definition before (p : Plugin) (spanName : string) : gormHookFunc :=
  tx ← get_tx;
  (match GetSegment (Context_ (Statement tx)) with
   | None =>
       '(ctx, _) ← BeginSegment (Context_ (Statement tx)) "FallbackParent";
       set_Context ctx
   | Some _ => mret tt
   end);;
  tx ← get_tx;
  '(ctx, seg) ← BeginSubsegment (Context_ (Statement tx)) spanName;
  set_Context ctx;;
  InstanceSet xray_subsegment (VSegment seg).

(** [formatQuery]: the formatter is user code and may panic. *)
Definition formatQuery (p : Plugin) (query : string) : outcome string :=
  match queryFormatter p with
  | Some f => f query
  | None => Ret query
  end.

(** The statement text of lines 123-128, before it is formatted. *)
Definition renderQuery (p : Plugin) (tx : DB) : outcome string :=
  if excludeQueryVars p
  then Ret (SQL (Statement tx))
  else Explain (dialector tx) (SQL (Statement tx)) (Vars (Statement tx)).

(** The body of the after hook behind the [defer]. *)
Definition annotate (p : Plugin) (tx : DB) (subSegment : nat) : M unit :=
  query ← call (renderQuery p tx);
  formatted ← call (formatQuery p query);
  AddMetadata subSegment "db.query" (VString formatted);;
  AddMetadata subSegment "db.operation" (VString (dbOperation formatted));;
  (if decide (Table (Statement tx) = "") then mret tt
   else AddMetadata subSegment "db.table" (VString (Table (Statement tx))));;
  (if decide (RowsAffected (Statement tx) = (-1)%Z) then mret tt
   else AddMetadata subSegment "db.rows.affected"
          (VInt (RowsAffected (Statement tx))));;
  match Error tx with
  | None
  | Some ErrRecordNotFound
  | Some ErrSkip
  | Some EOF
  | Some ErrNoRows => mret tt
  | Some e => AddError subSegment e
  end.

Definition after (p : Plugin) : gormHookFunc :=
  val ← InstanceGet xray_subsegment;
  match val with
  | None => mret tt
  | Some (VSegment (Some subSegment)) =>
      defer (Close subSegment None)
        (tx ← get_tx; annotate p tx subSegment)
  | Some _ => mret tt
  end.

(** ** Hook registration

    The callback manager of the host has one processor per operation kind.
    [cb.Create().Before("gorm:create")] makes a callback of the create
    processor placed before the callback of that name; its [Register] names
    it, stores the handler, appends it to the callbacks of the processor and
    returns what compiling the processor returns.  The compilation belongs
    to the host: [host_compile] is any function of the callbacks. *)

Inductive processor : Type := Create | Query | Delete | Update | Row | Raw.

#[export] Instance processor_eq_dec : EqDecision processor.
Proof. solve_decision. Defined.

Inductive position : Type :=
| Before (anchor : string)
| After (anchor : string).

Record callback : Type := {
  cb_processor : processor;
  cb_position : position;
  cb_name : string;
  cb_handler : gormHookFunc
}.

Record Host : Type := {
  host_callbacks : processor -> list callback;
  host_compile : processor -> list callback -> option error
}.

(** The interface [gormRegister], as the host's [*callback] implements it. *)
Record gormRegister : Type := {
  reg_processor : processor;
  reg_position : position
}.

Definition Register (c : gormRegister) (name : string) (fn : gormHookFunc)
    (db : Host) : option error * Host :=
  let entry :=
    {| cb_processor := reg_processor c; cb_position := reg_position c;
       cb_name := name; cb_handler := fn |} in
  let callbacks := host_callbacks db (reg_processor c) ++ [entry] in
  (host_compile db (reg_processor c) callbacks,
   {| host_callbacks := fun k =>
        if decide (k = reg_processor c) then callbacks else host_callbacks db k;
      host_compile := host_compile db |}).

Record hook : Type := {
  hook_callback : gormRegister;
  hook_fn : gormHookFunc;
  hook_name : string
}.

Definition cb_Before (k : processor) (anchor : string) : gormRegister :=
  {| reg_processor := k; reg_position := Before anchor |}.

Definition cb_After (k : processor) (anchor : string) : gormRegister :=
  {| reg_processor := k; reg_position := After anchor |}.

Definition hooks (p : Plugin) : list hook :=
  [ {| hook_callback := cb_Before Create "gorm:create";
       hook_fn := before p "gorm.Create"; hook_name := "before:create" |};
    {| hook_callback := cb_After Create "gorm:create";
       hook_fn := after p; hook_name := "after:create" |};
    {| hook_callback := cb_Before Query "gorm:query";
       hook_fn := before p "gorm.Query"; hook_name := "before:select" |};
    {| hook_callback := cb_After Query "gorm:query";
       hook_fn := after p; hook_name := "after:select" |};
    {| hook_callback := cb_Before Delete "gorm:delete";
       hook_fn := before p "gorm.Delete"; hook_name := "before:delete" |};
    {| hook_callback := cb_After Delete "gorm:delete";
       hook_fn := after p; hook_name := "after:delete" |};
    {| hook_callback := cb_Before Update "gorm:update";
       hook_fn := before p "gorm.Update"; hook_name := "before:update" |};
    {| hook_callback := cb_After Update "gorm:update";
       hook_fn := after p; hook_name := "after:update" |};
    {| hook_callback := cb_Before Row "gorm:row";
       hook_fn := before p "gorm.Row"; hook_name := "before:row" |};
    {| hook_callback := cb_After Row "gorm:row";
       hook_fn := after p; hook_name := "after:row" |};
    {| hook_callback := cb_Before Raw "gorm:raw";
       hook_fn := before p "gorm.Raw"; hook_name := "before:raw" |};
    {| hook_callback := cb_After Raw "gorm:raw";
       hook_fn := after p; hook_name := "after:raw" |} ].

(** [fmt.Errorf("callback register %s failed: %w", name, err)] *)
Definition register_failed (name : string) (err : error) : error :=
  ErrWrap
    (String.append "callback register "
       (String.append name (String.append " failed: " (error_message err))))
    err.

(** [log.Printf("[ERROR] Could not register callback %s: %v", name, err)] *)
Definition register_log_line (name : string) (err : error) : string :=
  String.append "[ERROR] Could not register callback "
    (String.append name (String.append ": " (error_message err))).

(** The state of the loop of [Initialize]: [firstErr], the host, and the
    lines written to the standard logger. *)
Record InitState : Type := {
  firstErr : option error;
  init_db : Host;
  init_log : list string
}.

Definition Initialize_step (st : InitState) (h : hook) : InitState :=
  let '(err, db') :=
    Register (hook_callback h) (String.append "xray:" (hook_name h))
      (hook_fn h) (init_db st) in
  match err, firstErr st with
  | Some e, None =>
      {| firstErr := Some (register_failed (hook_name h) e);
         init_db := db';
         init_log := init_log st ++ [register_log_line (hook_name h) e] |}
  | _, _ =>
      {| firstErr := firstErr st; init_db := db'; init_log := init_log st |}
  end.

Definition Initialize_loop (hs : list hook) (st : InitState) : InitState :=
  fold_left Initialize_step hs st.

Definition Initialize (p : Plugin) (db : Host) : InitState :=
  Initialize_loop (hooks p)
    {| firstErr := None; init_db := db; init_log := [] |}.

(** The registration calls one after the other, with what each returned:
    the yardstick for what [Initialize] attempts and reports. *)
Fixpoint register_each (hs : list hook) (db : Host)
  : list (hook * option error) * Host :=
  match hs with
  | [] => ([], db)
  | h :: hs' =>
      let '(err, db1) :=
        Register (hook_callback h) (String.append "xray:" (hook_name h))
          (hook_fn h) db in
      let '(rest, db2) := register_each hs' db1 in
      ((h, err) :: rest, db2)
  end.

(** The first call that failed, wrapped as [Initialize] wraps it. *)
Fixpoint first_failure (calls : list (hook * option error)) : option error :=
  match calls with
  | [] => None
  | (h, Some e) :: _ => Some (register_failed (hook_name h) e)
  | (_, None) :: rest => first_failure rest
  end.

(** ** Observations on a run

    What a hook added to the record of the SDK, and its projections: the
    spans closed, the error markers and the metadata, each in order. *)

Definition new_events (s s' : State) : list span_event :=
  drop (length (xr_log (st_xray s))) (xr_log (st_xray s')).

Fixpoint closed (evs : list span_event) : list nat :=
  match evs with
  | [] => []
  | EvClose seg _ :: rest => seg :: closed rest
  | _ :: rest => closed rest
  end.

Fixpoint error_markers (evs : list span_event) : list (nat * error) :=
  match evs with
  | [] => []
  | EvAddError seg e :: rest => (seg, e) :: error_markers rest
  | _ :: rest => error_markers rest
  end.

Fixpoint metadata (evs : list span_event) : list (nat * string * value) :=
  match evs with
  | [] => []
  | EvAddMetadata seg key v :: rest => (seg, key, v) :: metadata rest
  | _ :: rest => metadata rest
  end.

(** The values recorded on [seg] under [key]. *)
Definition select_value (seg : nat) (key : string)
    (entry : nat * string * value) : option value :=
  let '(sg, k, v) := entry in
  if decide (sg = seg /\ k = key) then Some v else None.

Definition recorded (seg : nat) (key : string) (evs : list span_event)
  : list value :=
  omap (select_value seg key) (metadata evs).

(** The span the side-channel of the instance holds, if it holds one. *)
Definition attached_span (s : State) : option value :=
  Settings (Statement (st_tx s)) !! xray_subsegment.

(** The ignorable set of the specification: no error, the "not found" of the
    operation layer, the "skip" of the driver, the end of the stream and the
    "no rows" of SQL. *)
Definition ignorable (e : option error) : bool :=
  match e with
  | None => true
  | Some ErrRecordNotFound => true
  | Some ErrSkip => true
  | Some EOF => true
  | Some ErrNoRows => true
  | Some _ => false
  end.

(** The same instance with other bound parameters and another dialector. *)
Definition with_parameters (vars : list value) (d : Dialector) (s : State)
  : State :=
  let tx := st_tx s in
  let stmt := Statement tx in
  {| st_tx := {| Statement := {| Context_ := Context_ stmt; SQL := SQL stmt;
                                 Vars := vars; Table := Table stmt;
                                 RowsAffected := RowsAffected stmt;
                                 Settings := Settings stmt |};
                 Error := Error tx; dialector := d |};
     st_xray := st_xray s |}.

(** The options the package exports. *)
Inductive exported_option : Option -> Prop :=
| exported_vars (exclude : bool) :
    exported_option (WithExcludeQueryVars exclude)
| exported_formatter (formatter : option (string -> outcome string)) :
    exported_option (WithQueryFormatter formatter).

(** The phase and operation kind a hook is registered for. *)
Definition is_before (c : gormRegister) : bool :=
  match reg_position c with
  | Before _ => true
  | After _ => false
  end.

Definition registered_for (k : processor) (before_phase : bool) (h : hook)
  : bool :=
  bool_decide (reg_processor (hook_callback h) = k)
  && Bool.eqb (is_before (hook_callback h)) before_phase.

(** [s] with [evs] added to the record of the SDK. *)
Definition appended (evs : list span_event) (s : State) : State :=
  {| st_tx := st_tx s;
     st_xray := {| xr_next := xr_next (st_xray s);
                   xr_log := xr_log (st_xray s) ++ evs;
                   xr_faults := xr_faults (st_xray s) |} |}.

(** Attachments one after the other, up to the first that panics. *)
Fixpoint attach_list (evs : list span_event) : M unit :=
  match evs with
  | [] => mret tt
  | ev :: rest => attach ev;; attach_list rest
  end.

(** What the after hook sets out to attach for the formatted text. *)
Definition annotations (tx : DB) (seg : nat) (formatted : string)
  : list span_event :=
  [EvAddMetadata seg "db.query" (VString formatted);
   EvAddMetadata seg "db.operation" (VString (dbOperation formatted))]
  ++ (if decide (Table (Statement tx) = "") then []
      else [EvAddMetadata seg "db.table" (VString (Table (Statement tx)))])
  ++ (if decide (RowsAffected (Statement tx) = (-1)%Z) then []
      else [EvAddMetadata seg "db.rows.affected"
              (VInt (RowsAffected (Statement tx)))])
  ++ (match Error tx with
      | Some e => if ignorable (Some e) then [] else [EvAddError seg e]
      | None => []
      end).

(** The entry [Register] appends for a hook. *)
Definition callback_of (h : hook) : callback :=
  {| cb_processor := reg_processor (hook_callback h);
     cb_position := reg_position (hook_callback h);
     cb_name := String.append "xray:" (hook_name h);
     cb_handler := hook_fn h |}.

Definition hooks_of (k : processor) (hs : list hook) : list hook :=
  filter (fun h => reg_processor (hook_callback h) = k) hs.

(** ** Sample values *)

Module Sample.

Definition nl : string := String newline EmptyString.

(** A dialector that appends the number of bound parameters. *)
Definition explain (sql : string) (vars : list value) : outcome string :=
  Ret (String.append sql
         (String.append " -- vars: "
            (string_of_list_ascii (repeat "?"%char (length vars))))).

Definition panicking (sql : string) (vars : list value) : outcome string :=
  Panic "explain".

Definition quiet : list span_event -> span_event -> bool := fun _ _ => false.

(** The SDK panics on the first attachment of the operation keyword. *)
Definition faulty : list span_event -> span_event -> bool := fun _ ev =>
  match ev with
  | EvAddMetadata _ key _ => bool_decide (key = "db.operation")
  | _ => false
  end.

Definition stmt (settings : gmap string value) : Stmt :=
  {| Context_ := {| ctx_segment := None; ctx_values := ∅ |};
     SQL := "SELECT * FROM users WHERE id = ?";
     Vars := [VInt 7];
     Table := "users";
     RowsAffected := 1;
     Settings := settings |}.

Definition tx (settings : gmap string value) (err : option error) : DB :=
  {| Statement := stmt settings; Error := err;
     dialector := {| Explain := explain |} |}.

Definition xr (faults : list span_event -> span_event -> bool) : XRay :=
  {| xr_next := 5;
     xr_log := [EvBeginSegment 3 "root"; EvBeginSubsegment 4 3 "gorm.Query"];
     xr_faults := faults |}.

(** After a before hook: the span 4 is attached. *)
Definition started (err : option error) : State :=
  {| st_tx := tx {[ xray_subsegment := VSegment (Some 4) ]} err;
     st_xray := xr quiet |}.

Definition started_faulty : State :=
  {| st_tx := tx {[ xray_subsegment := VSegment (Some 4) ]} None;
     st_xray := xr faulty |}.

(** No before hook ran. *)
Definition fresh_instance : State :=
  {| st_tx := tx ∅ None; st_xray := xr quiet |}.

(** The side-channel holds something else under the key. *)
Definition foreign (v : value) : State :=
  {| st_tx := tx {[ xray_subsegment := v ]} None; st_xray := xr quiet |}.

Definition redact (q : string) : outcome string :=
  Ret (String.append "/* redacted */ " "UPDATE t SET a = ?").

Definition plain : Plugin := NewPlugin [].
Definition unexpanded : Plugin := NewPlugin [WithExcludeQueryVars true].
Definition redacting : Plugin :=
  NewPlugin [WithExcludeQueryVars true; WithQueryFormatter (Some redact)].

(** A host that has no callbacks yet and rejects the names in [bad]. *)
Definition host (bad : list string) : Host :=
  {| host_callbacks := fun _ => [];
     host_compile := fun _ cbs =>
       match last (map cb_name cbs) with
       | Some name =>
           if bool_decide (name ∈ bad)
           then Some (ErrOther (String.append "conflicting callback " name))
           else None
       | None => None
       end |}.

End Sample.


(** ** Further observations *)

(** The segments and subsegments begun, in order. *)
Fixpoint begun (evs : list span_event) : list nat :=
  match evs with
  | [] => []
  | EvBeginSegment seg _ :: rest => seg :: begun rest
  | EvBeginSubsegment seg _ _ :: rest => seg :: begun rest
  | _ :: rest => begun rest
  end.

(** The instance as the host leaves it when it has executed the operation:
    another [tx] behind the same pointer, the SDK as it was. *)
Definition executed (tx : DB) (s : State) : State :=
  {| st_tx := tx; st_xray := st_xray s |}.

(** The line [Initialize] logs: that of the first call that failed. *)
Fixpoint first_failure_log (calls : list (hook * option error)) : list string :=
  match calls with
  | [] => []
  | (h, Some e) :: _ => [register_log_line (hook_name h) e]
  | (_, None) :: rest => first_failure_log rest
  end.

(** [[0-9a-z_]] *)
Definition is_lower_word (c : ascii) : bool :=
  let n := nat_of_ascii c in
  (Nat.leb 48 n && Nat.leb n 57) || (Nat.leb 97 n && Nat.leb n 122)
  || Nat.eqb n 95.

(** A byte that opens no comment: none of [/], [-] and [#]. *)
Definition opens_no_comment (c : ascii) : bool :=
  negb (Ascii.eqb c "/") && negb (Ascii.eqb c "-") && negb (Ascii.eqb c "#").

(** A byte other than [/]. *)
Definition not_slash (c : ascii) : bool := negb (Ascii.eqb c "/").

(** The bytes of a string, and [strings.ToLower] on a string of the ASCII. *)
Definition bytes_of (s : string) : bytes := list_ascii_of_string s.

Definition lower (s : string) : string :=
  string_of_list_ascii (ToLower (bytes_of s)).

(** Metadata and error attachments, as opposed to begins and closes. *)
Definition is_attachment (ev : span_event) : bool :=
  match ev with
  | EvAddMetadata _ _ _ | EvAddError _ _ => true
  | _ => false
  end.

(** ** Further sample values *)

Module Scenario.

(** The instance when the host has run a raw statement that found no row:
    the context carries the span 6, the side-channel holds it. *)
Definition ran : DB :=
  {| Statement :=
       {| Context_ := {| ctx_segment := Some 6; ctx_values := ∅ |};
          SQL := "SELECT 1"; Vars := []; Table := ""; RowsAffected := (-1)%Z;
          Settings := {[ xray_subsegment := VSegment (Some 6) ]} |};
     Error := Some ErrRecordNotFound;
     dialector := {| Explain := Sample.explain |} |}.

(** [Sample.started None] under another context and with one more entry in
    the settings. *)
Definition elsewhere : State :=
  {| st_tx :=
       {| Statement :=
            {| Context_ := {| ctx_segment := Some 9;
                              ctx_values := {[ "request" := VInt 1 ]} |};
               SQL := "SELECT * FROM users WHERE id = ?";
               Vars := [VInt 7];
               Table := "users";
               RowsAffected := 1;
               Settings := <[ "other" := VBool true ]>
                             {[ xray_subsegment := VSegment (Some 4) ]} |};
          Error := None;
          dialector := {| Explain := Sample.explain |} |};
     st_xray := Sample.xr Sample.quiet |}.

(** The dialector panics. *)
Definition unrenderable : State :=
  with_parameters [] {| Explain := Sample.panicking |} (Sample.started None).

End Scenario.

(** The SDK takes every attachment: no call of [AddMetadata] or [AddError]
    panics. *)
Definition sdk_quiet (xr : XRay) : Prop :=
  forall log ev, xr_faults xr log ev = false.

(** The constants of the table of [Initialize], by operation kind: the
    callback of the host the hooks are placed around, the name of the span
    and the suffix of the names the hooks are registered under. *)
Definition kind_anchor (k : processor) : string :=
  match k with
  | Create => "gorm:create"
  | Query => "gorm:query"
  | Delete => "gorm:delete"
  | Update => "gorm:update"
  | Row => "gorm:row"
  | Raw => "gorm:raw"
  end.

Definition kind_span (k : processor) : string :=
  match k with
  | Create => "gorm.Create"
  | Query => "gorm.Query"
  | Delete => "gorm.Delete"
  | Update => "gorm.Update"
  | Row => "gorm.Row"
  | Raw => "gorm.Raw"
  end.

Definition kind_name (k : processor) : string :=
  match k with
  | Create => "create"
  | Query => "select"
  | Delete => "delete"
  | Update => "update"
  | Row => "row"
  | Raw => "raw"
  end.

(** The two callbacks [Initialize] registers for a kind. *)
Definition before_callback (p : Plugin) (k : processor) : callback :=
  {| cb_processor := k;
     cb_position := Before (kind_anchor k);
     cb_name := String.append "xray:before:" (kind_name k);
     cb_handler := before p (kind_span k) |}.

Definition after_callback (p : Plugin) (k : processor) : callback :=
  {| cb_processor := k;
     cb_position := After (kind_anchor k);
     cb_name := String.append "xray:after:" (kind_name k);
     cb_handler := after p |}.

(** * Properties *)

(** ** The classifier *)

Section ClassifierRefinement.
Import Classifier.

Lemma star_lazy_unfold p k b s :
  star_lazy p k b s =
  match k b s with
  | Some r => Some r
  | None =>
      match s with
      | c :: s' => if p c then star_lazy p k false s' else None
      | [] => None
      end
  end.
Proof. destruct s; reflexivity. Qed.

Lemma star_greedy_unfold p k b s :
  star_greedy p k b s =
  match s with
  | c :: s' =>
      if p c then
        match star_greedy p k false s' with
        | Some r => Some r
        | None => k b s
        end
      else k b s
  | [] => k b s
  end.
Proof. destruct s; reflexivity. Qed.

(** The closing [*/] at the head of the input. *)
Lemma rmatch_close b s :
  rmatch (Cat (Lit "*") (Lit "/")) accept b s =
  match s with
  | c :: d :: rest =>
      if Ascii.eqb c "*" && Ascii.eqb d "/" then Some rest else None
  | _ => None
  end.
Proof.
  destruct s as [|c [|d rest]]; simpl; try reflexivity.
  - destruct (Ascii.eqb c "*"); reflexivity.
  - destruct (Ascii.eqb c "*"), (Ascii.eqb d "/"); reflexivity.
Qed.

Lemma star_lazy_close b s :
  star_lazy any_byte (rmatch (Cat (Lit "*") (Lit "/")) accept) b s = after_close s.
Proof.
  revert b. induction s as [|c t IH]; intros b.
  - reflexivity.
  - rewrite star_lazy_unfold, rmatch_close. unfold any_byte.
    destruct t as [|d u]; [reflexivity|].
    change (after_close (c :: d :: u))
      with (if Ascii.eqb c "*" && Ascii.eqb d "/" then Some u
            else after_close (d :: u)).
    destruct (Ascii.eqb c "*" && Ascii.eqb d "/"); [reflexivity|]. apply IH.
Qed.

Lemma rmatch_cComment b s :
  rmatch cCommentRegex accept b s = block_comment s.
Proof.
  destruct s as [|c [|d t]]; simpl.
  - reflexivity.
  - destruct (Ascii.eqb c "/"); reflexivity.
  - destruct (Ascii.eqb c "/"); simpl; [|reflexivity].
    destruct (Ascii.eqb d "*"); simpl; [|reflexivity].
    apply (star_lazy_close false t).
Qed.

Lemma after_close_suffix s rest :
  after_close s = Some rest -> exists pre, s = pre ++ rest /\ 2 <= length pre.
Proof.
  revert rest. induction s as [|c t IH]; intros rest; simpl; [discriminate|].
  destruct t as [|d u]; [discriminate|].
  destruct (Ascii.eqb c "*" && Ascii.eqb d "/").
  - intros [= <-]. exists [c; d]. split; [reflexivity | simpl; lia].
  - intros H. destruct (IH _ H) as (pre & Hpre & Hlen).
    exists (c :: pre). rewrite Hpre. split; [reflexivity | simpl; lia].
Qed.

Lemma block_comment_suffix s rest :
  block_comment s = Some rest -> exists pre, s = pre ++ rest /\ 4 <= length pre.
Proof.
  destruct s as [|c [|d t]]; simpl; try discriminate.
  destruct (Ascii.eqb c "/" && Ascii.eqb d "*"); [|discriminate].
  intros H. destruct (after_close_suffix _ _ H) as (pre & -> & Hlen).
  exists (c :: d :: pre). split; [reflexivity | simpl; lia].
Qed.

Lemma replace_go_skip r n s :
  replace_go r false n s = replace_go r false 0 (skipn n s).
Proof.
  revert s. induction n as [|n IH]; intros s; [reflexivity|].
  destruct s as [|c t]; [reflexivity|]. simpl. apply IH.
Qed.

(** Dropping a match of [n + 1] bytes that leaves [rest] goes on at [rest]. *)
Lemma replace_go_drop r c t pre rest n :
  c :: t = pre ++ rest -> length pre = S n ->
  replace_go r false n t = replace_go r false 0 rest.
Proof.
  intros Heq Hlen. rewrite replace_go_skip. f_equal.
  destruct pre as [|x pre]; [discriminate|].
  injection Heq as -> ->. injection Hlen as <-.
  apply drop_app_length.
Qed.

Lemma replace_go_cons r b c t :
  replace_go r b 0 (c :: t) =
  match match_here r b (c :: t) with
  | Some (S n) => replace_go r false n t
  | Some O | None => c :: replace_go r false 0 t
  end.
Proof. reflexivity. Qed.

Lemma match_here_suffix r b s pre rest :
  rmatch r accept b s = Some rest -> s = pre ++ rest ->
  match_here r b s = Some (length pre).
Proof.
  intros Hm ->. unfold match_here. rewrite Hm. f_equal.
  rewrite length_app. lia.
Qed.

Lemma replace_block_comments s :
  forall b, replace_go cCommentRegex b 0 s = strip_block_comments s.
Proof.
  funelim (strip_block_comments s); intros b.
  - reflexivity.
  - destruct (block_comment_suffix _ _ e) as (pre & Hpre & Hlen).
    rewrite replace_go_cons.
    rewrite (match_here_suffix _ _ _ pre rest) by (rewrite ?rmatch_cComment; assumption).
    destruct (length pre) as [|n] eqn:Hn; [lia|].
    rewrite (replace_go_drop _ c t pre rest n Hpre Hn). apply H.
  - rewrite replace_go_cons. unfold match_here.
    rewrite rmatch_cComment, e. f_equal. apply H.
Qed.

(** Line comments. *)

Lemma star_lazy_line b s :
  star_lazy not_newline (rmatch EndLine accept) b s = Some (to_end_of_line s).
Proof.
  revert b. induction s as [|c t IH]; intros b; [reflexivity|].
  rewrite star_lazy_unfold. simpl. unfold not_newline.
  destruct (Ascii.eqb c newline); simpl; [reflexivity | apply IH].
Qed.

Lemma rmatch_lineComment b s :
  rmatch lineCommentRegex accept b s =
  if line_comment_start s then Some (to_end_of_line (tl s)) else None.
Proof.
  destruct s as [|c t]; [reflexivity|].
  change (rmatch lineCommentRegex accept b (c :: t))
    with (match (if Ascii.eqb c "-" then
                   match t with
                   | x :: s' =>
                       if Ascii.eqb x "-"
                       then star_lazy not_newline (rmatch EndLine accept) false s'
                       else None
                   | [] => None
                   end
                 else None) with
          | Some r => Some r
          | None =>
              if Ascii.eqb c "#"
              then star_lazy not_newline (rmatch EndLine accept) false t
              else None
          end).
  unfold line_comment_start, tl.
  destruct (Ascii.eqb_spec c "-") as [->|Hc].
  - change (Ascii.eqb "-" "#") with false. cbv beta iota. simpl orb.
    destruct t as [|x s']; [reflexivity|].
    destruct (Ascii.eqb_spec x "-") as [->|Hx]; simpl andb; cbv iota.
    + rewrite star_lazy_line. reflexivity.
    + reflexivity.
  - destruct (Ascii.eqb c "#"); simpl.
    + apply star_lazy_line.
    + destruct t; reflexivity.
Qed.

Lemma to_end_of_line_suffix s : exists pre, s = pre ++ to_end_of_line s.
Proof.
  induction s as [|c t [pre IH]]; [exists []; reflexivity|]. simpl.
  destruct (Ascii.eqb c newline).
  - exists []. reflexivity.
  - exists (c :: pre). simpl. congruence.
Qed.

Lemma replace_line_comments s :
  forall b, replace_go lineCommentRegex b 0 s = strip_line_comments s.
Proof.
  funelim (strip_line_comments s); intros b.
  - reflexivity.
  - destruct (to_end_of_line_suffix t) as [pre Hpre].
    rewrite replace_go_cons.
    rewrite (match_here_suffix _ _ _ (c :: pre) (to_end_of_line t)).
    + simpl length. cbv iota.
      rewrite (replace_go_drop _ c t (c :: pre) (to_end_of_line t) (length pre));
        [apply H | simpl; congruence | reflexivity].
    + rewrite rmatch_lineComment, Heq. reflexivity.
    + simpl. congruence.
  - rewrite replace_go_cons. unfold match_here.
    rewrite rmatch_lineComment, Heq. f_equal. apply H.
Qed.

(** The leading separators. *)

Lemma star_greedy_prefix b s :
  star_greedy is_space_or_semi accept b s = Some (strip_prefix s).
Proof.
  revert b. induction s as [|c t IH]; intros b; [reflexivity|].
  rewrite star_greedy_unfold. simpl.
  destruct (is_space_or_semi c); [rewrite IH|]; reflexivity.
Qed.

Lemma strip_prefix_suffix s :
  exists pre, s = pre ++ strip_prefix s /\ forallb is_space_or_semi pre = true.
Proof.
  induction s as [|c t (pre & IH & Hall)]; [exists []; split; reflexivity|].
  simpl. destruct (is_space_or_semi c) eqn:Hc.
  - exists (c :: pre). simpl. rewrite Hc. split; [congruence | assumption].
  - exists []. split; reflexivity.
Qed.

(** Behind the start of the text [^] matches nowhere, so the bytes are kept. *)
Lemma replace_go_anchored r n s :
  n = 0 -> replace_go (Cat BeginText r) false n s = s.
Proof.
  intros ->. induction s as [|c t IH]; [reflexivity|].
  rewrite replace_go_cons. unfold match_here. simpl rmatch. cbv iota.
  f_equal. exact IH.
Qed.

Lemma replace_prefix s :
  ReplaceAllString_empty sqlPrefixRegex s = strip_prefix s.
Proof.
  unfold ReplaceAllString_empty. destruct s as [|c t]; [reflexivity|].
  rewrite replace_go_cons. unfold match_here, sqlPrefixRegex.
  change (rmatch (Cat BeginText (StarGreedy is_space_or_semi)) accept true (c :: t))
    with (star_greedy is_space_or_semi accept true (c :: t)).
  rewrite star_greedy_prefix.
  destruct (strip_prefix_suffix (c :: t)) as (pre & Hpre & _).
  rewrite Hpre at 1. rewrite length_app.
  replace (length pre + length (strip_prefix (c :: t)) - length (strip_prefix (c :: t)))
    with (length pre) by lia.
  destruct pre as [|x pre].
  - simpl length. cbv iota. rewrite replace_go_anchored by reflexivity.
    simpl in Hpre. exact Hpre.
  - simpl length. cbv iota.
    rewrite (replace_go_drop _ c t (x :: pre) (strip_prefix (c :: t)) (length pre) Hpre eq_refl).
    apply replace_go_anchored. reflexivity.
Qed.

(** The leading keyword. *)

Lemma star_greedy_word b s :
  exists rest,
    star_greedy is_word accept b s = Some rest /\ s = leading_word s ++ rest.
Proof.
  revert b. induction s as [|c t IH]; intros b.
  - exists []. split; reflexivity.
  - rewrite star_greedy_unfold. simpl. destruct (is_word c).
    + destruct (IH false) as (rest & -> & Heq). exists rest.
      split; [reflexivity | simpl; congruence].
    + exists (c :: t). split; reflexivity.
Qed.

Lemma find_go_anchored r s : find_go (Cat BeginText r) false s = [].
Proof. induction s as [|c t IH]; [reflexivity | exact IH]. Qed.

Lemma find_first_word s : FindString firstWordRegex s = leading_word s.
Proof.
  unfold FindString. destruct s as [|c t]; [reflexivity|].
  unfold firstWordRegex, PlusGreedy.
  cbn [find_go]. unfold match_here. cbn [rmatch leading_word].
  destruct (is_word c).
  - destruct (star_greedy_word false t) as (rest & -> & Heq).
    rewrite Heq at 1 2. simpl length. rewrite length_app.
    replace (S (length (leading_word t) + length rest) - length rest)
      with (S (length (leading_word t))) by lia.
    simpl. f_equal. apply take_app_length.
  - apply find_go_anchored.
Qed.

Lemma dbOperation_bytes_classify s :
  dbOperation_bytes s = classify_bytes s.
Proof.
  unfold dbOperation_bytes, classify_bytes, ToLower.
  rewrite find_first_word, replace_prefix.
  unfold ReplaceAllString_empty.
  rewrite replace_line_comments, replace_block_comments. reflexivity.
Qed.

(** The keyword [dbOperation] returns is a run of ASCII word bytes, so the
    byte path of [strings.ToLower] is the one taken. *)
Lemma first_word_ascii s :
  forallb is_word (FindString firstWordRegex s) = true.
Proof.
  rewrite find_first_word. induction s as [|c t IH]; [reflexivity|].
  simpl. destruct (is_word c) eqn:Hc; [simpl; rewrite Hc; exact IH | reflexivity].
Qed.


End ClassifierRefinement.

(** C2. [dbOperation] is the classifier of the specification: block comments
    removed, then line comments, then the leading whitespace and semicolons,
    then the leading run of word characters in lower case, which is the
    empty string when no keyword is left.  It is a total function, and on
    the three statements of the specification it returns [select], the empty
    string and [insert]. *)
Theorem dbOperation_classifies :
  (forall s, dbOperation s = Classifier.classify s)
  /\ dbOperation ("/* x */  -- y" ++ Sample.nl ++ "  SELECT 1") = "select"
  /\ dbOperation "   " = ""
  /\ dbOperation ";;INSERT INTO t VALUES (1)" = "insert".
Proof.
  split; [|repeat split; reflexivity].
  intros s. unfold dbOperation, Classifier.classify.
  rewrite dbOperation_bytes_classify. reflexivity.
Qed.

(** ** The hooks *)

Section HookRuns.

Lemma bind_run {A B : Type} (m : M A) (f : A -> M B) (s : State) :
  (m ≫= f) s =
  match m s with
  | (Ret a, s') => f a s'
  | (Panic reason, s') => (Panic reason, s')
  end.
Proof. reflexivity. Qed.

Lemma mret_bind {A B : Type} (a : A) (f : A -> M B) (s : State) :
  (mret a ≫= f) s = f a s.
Proof. reflexivity. Qed.

Lemma appended_nil s : appended [] s = s.
Proof.
  destruct s as [tx [next log faults]]. unfold appended. simpl.
  rewrite app_nil_r. reflexivity.
Qed.

Lemma appended_app evs1 evs2 s :
  appended evs2 (appended evs1 s) = appended (evs1 ++ evs2) s.
Proof. unfold appended. simpl. rewrite app_assoc. reflexivity. Qed.

Lemma new_events_appended evs s : new_events s (appended evs s) = evs.
Proof. unfold new_events. simpl. apply drop_app_length. Qed.

Lemma attach_run ev s :
  attach ev s =
  if xr_faults (st_xray s) (xr_log (st_xray s)) ev
  then (Panic "xray", s)
  else (Ret tt, appended [ev] s).
Proof. reflexivity. Qed.

(** What [attach_list] records is a prefix of what it was given, and all of
    it when it returns. *)
Lemma attach_list_run evs s :
  exists done,
    snd (attach_list evs s) = appended done s
    /\ (exists rest, evs = done ++ rest)
    /\ (fst (attach_list evs s) = Ret tt -> done = evs).
Proof.
  revert s. induction evs as [|ev evs IH]; intros s.
  - exists []. simpl. rewrite appended_nil. split; [reflexivity|].
    split; [exists []; reflexivity | reflexivity].
  - cbn [attach_list]. rewrite bind_run, attach_run.
    destruct (xr_faults (st_xray s) (xr_log (st_xray s)) ev).
    + exists []. simpl. rewrite appended_nil. split; [reflexivity|].
      split; [exists (ev :: evs); reflexivity | discriminate].
    + destruct (IH (appended [ev] s)) as (done & Hs & [rest Hrest] & Hret).
      exists (ev :: done). rewrite Hs, appended_app. split; [reflexivity|].
      split; [exists rest; simpl; congruence|].
      intros H. f_equal. apply Hret, H.
Qed.

Lemma attach_last ev s : (attach ev;; mret tt) s = attach ev s.
Proof.
  rewrite bind_run, attach_run.
  destruct (xr_faults (st_xray s) (xr_log (st_xray s)) ev); reflexivity.
Qed.

Lemma bind_ext {A B : Type} (m : M A) (f g : A -> M B) s :
  (forall a s', f a s' = g a s') -> (m ≫= f) s = (m ≫= g) s.
Proof.
  intros H. rewrite !bind_run. destruct (m s) as [[a|reason] s']; [apply H | reflexivity].
Qed.

Lemma annotate_attach_list p tx seg s :
  annotate p tx seg s =
  (query ← call (renderQuery p tx);
   formatted ← call (formatQuery p query);
   attach_list (annotations tx seg formatted)) s.
Proof.
  unfold annotate, annotations.
  apply bind_ext; intros query s1. apply bind_ext; intros formatted s2.
  cbn [app attach_list]. unfold AddMetadata, AddError.
  apply bind_ext; intros _ s3. apply bind_ext; intros _ s4.
  destruct (decide (Table (Statement tx) = ""));
    destruct (decide (RowsAffected (Statement tx) = (-1)%Z));
    cbn [app attach_list]; rewrite ?mret_bind;
    repeat (apply bind_ext; intros _ ?); rewrite ?mret_bind;
    destruct (Error tx) as [[]|]; cbn [ignorable app attach_list];
    rewrite ?attach_last; reflexivity.
Qed.

Lemma closed_app evs1 evs2 : closed (evs1 ++ evs2) = closed evs1 ++ closed evs2.
Proof.
  induction evs1 as [|[] evs1 IH]; simpl; rewrite ?IH; reflexivity.
Qed.

Lemma error_markers_app evs1 evs2 :
  error_markers (evs1 ++ evs2) = error_markers evs1 ++ error_markers evs2.
Proof.
  induction evs1 as [|[] evs1 IH]; simpl; rewrite ?IH; reflexivity.
Qed.

Lemma metadata_app evs1 evs2 :
  metadata (evs1 ++ evs2) = metadata evs1 ++ metadata evs2.
Proof.
  induction evs1 as [|[] evs1 IH]; simpl; rewrite ?IH; reflexivity.
Qed.

Lemma closed_annotations tx seg formatted :
  closed (annotations tx seg formatted) = [].
Proof.
  unfold annotations.
  destruct (decide (Table (Statement tx) = ""));
    destruct (decide (RowsAffected (Statement tx) = (-1)%Z));
    destruct (Error tx) as [[]|]; reflexivity.
Qed.

Lemma error_markers_annotations tx seg formatted :
  error_markers (annotations tx seg formatted) =
  match Error tx with
  | Some e => if ignorable (Some e) then [] else [(seg, e)]
  | None => []
  end.
Proof.
  unfold annotations.
  destruct (decide (Table (Statement tx) = ""));
    destruct (decide (RowsAffected (Statement tx) = (-1)%Z));
    destruct (Error tx) as [[]|]; reflexivity.
Qed.

Lemma metadata_annotations tx seg formatted :
  metadata (annotations tx seg formatted) =
  [(seg, "db.query", VString formatted);
   (seg, "db.operation", VString (dbOperation formatted))]
  ++ (if decide (Table (Statement tx) = "") then []
      else [(seg, "db.table", VString (Table (Statement tx)))])
  ++ (if decide (RowsAffected (Statement tx) = (-1)%Z) then []
      else [(seg, "db.rows.affected", VInt (RowsAffected (Statement tx)))]).
Proof.
  unfold annotations.
  destruct (decide (Table (Statement tx) = ""));
    destruct (decide (RowsAffected (Statement tx) = (-1)%Z));
    destruct (Error tx) as [[]|]; reflexivity.
Qed.

(** The body of the after hook: what it records is a prefix of the
    annotations, never a close, and all the annotations when it returns. *)
Lemma annotate_run p tx seg s :
  exists done,
    snd (annotate p tx seg s) = appended done s
    /\ closed done = []
    /\ (ignorable (Error tx) = true -> error_markers done = [])
    /\ (fst (annotate p tx seg s) = Ret tt ->
        exists query formatted,
          renderQuery p tx = Ret query
          /\ formatQuery p query = Ret formatted
          /\ done = annotations tx seg formatted).
Proof.
  rewrite annotate_attach_list, bind_run. unfold call.
  destruct (renderQuery p tx) as [query|reason] eqn:Hquery.
  2:{ exists []. rewrite appended_nil. simpl. repeat split; discriminate. }
  rewrite bind_run.
  destruct (formatQuery p query) as [formatted|reason] eqn:Hformatted.
  2:{ exists []. rewrite appended_nil. simpl. repeat split; discriminate. }
  destruct (attach_list_run (annotations tx seg formatted) s)
    as (done & Hs & [rest Hrest] & Hret).
  exists done. split; [exact Hs|]. split; [|split].
  - pose proof (closed_annotations tx seg formatted) as H.
    rewrite Hrest, closed_app in H. apply app_eq_nil in H. apply H.
  - intros Hign.
    pose proof (error_markers_annotations tx seg formatted) as H.
    rewrite Hrest, error_markers_app in H.
    destruct (Error tx) as [e|]; [rewrite Hign in H|];
      apply app_eq_nil in H; apply H.
  - intros H. exists query, formatted.
    split; [reflexivity|]. split; [exact Hformatted|]. apply Hret, H.
Qed.

Lemma after_attached p s seg :
  attached_span s = Some (VSegment (Some seg)) ->
  after p s =
  (fst (annotate p (st_tx s) seg s),
   appended [EvClose seg None] (snd (annotate p (st_tx s) seg s))).
Proof.
  intros H. unfold after. rewrite bind_run. unfold InstanceGet.
  unfold attached_span in H. rewrite H. unfold defer.
  rewrite bind_run. unfold get_tx.
  destruct (annotate p (st_tx s) seg s) as [r s1]. reflexivity.
Qed.

Lemma after_not_attached p s :
  (forall seg, attached_span s <> Some (VSegment (Some seg))) ->
  after p s = (Ret tt, s).
Proof.
  intros H. unfold after. rewrite bind_run. unfold InstanceGet.
  unfold attached_span in H.
  destruct (Settings (Statement (st_tx s)) !! xray_subsegment)
    as [[[seg|]| | |]|]; try reflexivity.
  destruct (H seg). reflexivity.
Qed.

(** An after hook that finds its span: the annotations recorded, then the
    close. *)
Lemma after_run p s seg :
  attached_span s = Some (VSegment (Some seg)) ->
  exists done,
    new_events s (snd (after p s)) = done ++ [EvClose seg None]
    /\ closed done = []
    /\ (ignorable (Error (st_tx s)) = true -> error_markers done = [])
    /\ (fst (after p s) = Ret tt ->
        exists query formatted,
          renderQuery p (st_tx s) = Ret query
          /\ formatQuery p query = Ret formatted
          /\ done = annotations (st_tx s) seg formatted).
Proof.
  intros H. rewrite (after_attached p s seg H). simpl fst. simpl snd.
  destruct (annotate_run p (st_tx s) seg s) as (done & Hs & Hrest).
  exists done. rewrite Hs, appended_app, new_events_appended.
  split; [reflexivity | exact Hrest].
Qed.

Lemma attach_list_xray evs :
  forall s1 s2,
    st_xray s1 = st_xray s2 ->
    fst (attach_list evs s1) = fst (attach_list evs s2)
    /\ st_xray (snd (attach_list evs s1)) = st_xray (snd (attach_list evs s2)).
Proof.
  induction evs as [|ev evs IH]; intros s1 s2 H.
  - split; [reflexivity | exact H].
  - cbn [attach_list]. rewrite !bind_run, !attach_run, H.
    destruct (xr_faults (st_xray s2) (xr_log (st_xray s2)) ev).
    + split; [reflexivity | exact H].
    + apply IH. unfold appended. simpl. rewrite H. reflexivity.
Qed.

(** With [excludeQueryVars] the body of the hook does not look at the bound
    parameters or at the dialector. *)
Lemma annotate_parameters p s seg vars d :
  excludeQueryVars p = true ->
  fst (annotate p (st_tx (with_parameters vars d s)) seg (with_parameters vars d s))
  = fst (annotate p (st_tx s) seg s)
  /\ st_xray (snd (annotate p (st_tx (with_parameters vars d s)) seg
                     (with_parameters vars d s)))
     = st_xray (snd (annotate p (st_tx s) seg s)).
Proof.
  intros Hex. rewrite !annotate_attach_list, !bind_run. unfold call, renderQuery.
  rewrite Hex. rewrite !bind_run.
  change (SQL (Statement (st_tx (with_parameters vars d s))))
    with (SQL (Statement (st_tx s))).
  destruct (formatQuery p (SQL (Statement (st_tx s)))) as [formatted|reason].
  - change (annotations (st_tx (with_parameters vars d s)) seg formatted)
      with (annotations (st_tx s) seg formatted).
    apply attach_list_xray. reflexivity.
  - split; reflexivity.
Qed.

Lemma select_value_same seg key v :
  select_value seg key (seg, key, v) = Some v.
Proof. unfold select_value. apply decide_True. split; reflexivity. Qed.

Lemma select_value_other seg k key v :
  k <> key -> select_value seg key (seg, k, v) = None.
Proof. intros Hne. unfold select_value. apply decide_False. intros [_ H]. auto. Qed.

Lemma recorded_annotations_query tx seg formatted rest :
  metadata rest = [] ->
  recorded seg "db.query" (annotations tx seg formatted ++ rest)
  = [VString formatted].
Proof.
  intros Hrest. unfold recorded.
  rewrite metadata_app, Hrest, app_nil_r, metadata_annotations.
  destruct (decide (Table (Statement tx) = ""));
    destruct (decide (RowsAffected (Statement tx) = (-1)%Z));
    cbn [app omap list_omap];
    rewrite select_value_same, ?select_value_other by discriminate;
    reflexivity.
Qed.

Lemma recorded_annotations_operation tx seg formatted rest :
  metadata rest = [] ->
  recorded seg "db.operation" (annotations tx seg formatted ++ rest)
  = [VString (dbOperation formatted)].
Proof.
  intros Hrest. unfold recorded.
  rewrite metadata_app, Hrest, app_nil_r, metadata_annotations.
  destruct (decide (Table (Statement tx) = ""));
    destruct (decide (RowsAffected (Statement tx) = (-1)%Z));
    cbn [app omap list_omap];
    rewrite select_value_same, ?select_value_other by discriminate;
    reflexivity.
Qed.

(** With a quiet SDK every attachment takes effect. *)
Lemma attach_list_quiet evs s :
  sdk_quiet (st_xray s) -> attach_list evs s = (Ret tt, appended evs s).
Proof.
  revert s. induction evs as [|ev evs IH]; intros s Hq.
  - simpl. rewrite appended_nil. reflexivity.
  - cbn [attach_list]. rewrite bind_run, attach_run, Hq.
    rewrite IH by exact Hq. rewrite appended_app. reflexivity.
Qed.

(** When the dialector and the formatter return and the SDK is quiet, the
    after hook returns, with all the annotations and the close recorded. *)
Lemma after_returns p s seg query formatted :
  attached_span s = Some (VSegment (Some seg)) ->
  renderQuery p (st_tx s) = Ret query ->
  formatQuery p query = Ret formatted ->
  sdk_quiet (st_xray s) ->
  after p s =
  (Ret tt, appended (annotations (st_tx s) seg formatted ++ [EvClose seg None]) s).
Proof.
  intros H Hq Hf Hquiet. rewrite (after_attached p s seg H).
  rewrite annotate_attach_list, !bind_run. unfold call.
  rewrite Hq, bind_run, Hf, attach_list_quiet by exact Hquiet.
  cbn [fst snd]. rewrite appended_app. reflexivity.
Qed.

(** In every run what the after hook records before the close is the
    beginning of the annotations for the text the formatter made of the
    rendered statement, and nothing when one of the two panicked. *)
Lemma after_prefix p s seg :
  attached_span s = Some (VSegment (Some seg)) ->
  exists done,
    new_events s (snd (after p s)) = done ++ [EvClose seg None]
    /\ (done = []
        \/ exists query formatted rest,
             renderQuery p (st_tx s) = Ret query
             /\ formatQuery p query = Ret formatted
             /\ annotations (st_tx s) seg formatted = done ++ rest).
Proof.
  intros H. rewrite (after_attached p s seg H). cbn [snd].
  rewrite annotate_attach_list, bind_run. unfold call.
  destruct (renderQuery p (st_tx s)) as [query|reason] eqn:Hq.
  2:{ exists []. cbn [snd]. rewrite new_events_appended. auto. }
  rewrite bind_run.
  destruct (formatQuery p query) as [formatted|reason] eqn:Hf.
  2:{ exists []. cbn [snd]. rewrite new_events_appended. auto. }
  destruct (attach_list_run (annotations (st_tx s) seg formatted) s)
    as (done & Hs & [rest Hrest] & _).
  exists done. rewrite Hs, appended_app, new_events_appended.
  split; [reflexivity|]. right. exists query, formatted, rest. auto.
Qed.

Lemma recorded_app seg key evs1 evs2 :
  recorded seg key (evs1 ++ evs2) = recorded seg key evs1 ++ recorded seg key evs2.
Proof. unfold recorded. rewrite metadata_app. apply omap_app. Qed.

(** A value recorded under a key is one the annotations hold under it. *)
Lemma after_recorded_only p s seg key v :
  attached_span s = Some (VSegment (Some seg)) ->
  In v (recorded seg key (new_events s (snd (after p s)))) ->
  exists query formatted,
    renderQuery p (st_tx s) = Ret query
    /\ formatQuery p query = Ret formatted
    /\ In v (recorded seg key (annotations (st_tx s) seg formatted)).
Proof.
  intros H Hin. destruct (after_prefix p s seg H) as (done & Hev & Hdone).
  rewrite Hev, recorded_app in Hin. cbn in Hin. rewrite app_nil_r in Hin.
  destruct Hdone as [-> | (query & formatted & rest & Hq & Hf & Hann)].
  - destruct Hin.
  - exists query, formatted. split; [exact Hq|]. split; [exact Hf|].
    rewrite Hann, recorded_app. apply in_or_app. left. exact Hin.
Qed.

Lemma after_metadata_only p s seg entry :
  attached_span s = Some (VSegment (Some seg)) ->
  In entry (metadata (new_events s (snd (after p s)))) ->
  exists formatted, In entry (metadata (annotations (st_tx s) seg formatted)).
Proof.
  intros H Hin. destruct (after_prefix p s seg H) as (done & Hev & Hdone).
  rewrite Hev, metadata_app in Hin. cbn in Hin. rewrite app_nil_r in Hin.
  destruct Hdone as [-> | (query & formatted & rest & _ & _ & Hann)].
  - destruct Hin.
  - exists formatted. rewrite Hann, metadata_app. apply in_or_app. left. exact Hin.
Qed.

(** The error markers recorded are the beginning of those of the
    annotations. *)
Lemma after_markers_prefix p s seg :
  attached_span s = Some (VSegment (Some seg)) ->
  error_markers (new_events s (snd (after p s))) = []
  \/ exists e,
       Error (st_tx s) = Some e /\ ignorable (Some e) = false
       /\ error_markers (new_events s (snd (after p s))) = [(seg, e)].
Proof.
  intros H. destruct (after_prefix p s seg H) as (done & Hev & Hdone).
  rewrite Hev, error_markers_app. cbn. rewrite app_nil_r.
  destruct Hdone as [-> | (query & formatted & rest & _ & _ & Hann)];
    [left; reflexivity|].
  pose proof (error_markers_annotations (st_tx s) seg formatted) as Hm.
  rewrite Hann, error_markers_app in Hm.
  destruct (error_markers done) as [|m ms]; [left; reflexivity|]. right.
  destruct (Error (st_tx s)) as [e|]; [|discriminate].
  destruct (ignorable (Some e)) eqn:Hign; [discriminate|].
  exists e. split; [reflexivity|]. split; [exact Hign|].
  simpl in Hm. injection Hm as -> Hms. apply app_eq_nil in Hms as [-> _].
  reflexivity.
Qed.

Lemma recorded_query_annotations tx seg formatted :
  recorded seg "db.query" (annotations tx seg formatted) = [VString formatted].
Proof.
  rewrite <- (app_nil_r (annotations tx seg formatted)).
  apply recorded_annotations_query. reflexivity.
Qed.

Lemma recorded_operation_annotations tx seg formatted :
  recorded seg "db.operation" (annotations tx seg formatted)
  = [VString (dbOperation formatted)].
Proof.
  rewrite <- (app_nil_r (annotations tx seg formatted)).
  apply recorded_annotations_operation. reflexivity.
Qed.

(** A [db.query] on the span is the formatted text of the rendered statement,
    a [db.operation] its keyword, in every run. *)
Lemma after_query_only p s seg v :
  attached_span s = Some (VSegment (Some seg)) ->
  In v (recorded seg "db.query" (new_events s (snd (after p s)))) ->
  exists query formatted,
    renderQuery p (st_tx s) = Ret query
    /\ formatQuery p query = Ret formatted
    /\ v = VString formatted.
Proof.
  intros H Hin.
  destruct (after_recorded_only p s seg _ v H Hin)
    as (query & formatted & Hq & Hf & Hv).
  exists query, formatted. split; [exact Hq|]. split; [exact Hf|].
  rewrite recorded_query_annotations in Hv.
  destruct Hv as [<- | []]. reflexivity.
Qed.

Lemma after_operation_only p s seg v :
  attached_span s = Some (VSegment (Some seg)) ->
  In v (recorded seg "db.operation" (new_events s (snd (after p s)))) ->
  exists query formatted,
    renderQuery p (st_tx s) = Ret query
    /\ formatQuery p query = Ret formatted
    /\ v = VString (dbOperation formatted).
Proof.
  intros H Hin.
  destruct (after_recorded_only p s seg _ v H Hin)
    as (query & formatted & Hq & Hf & Hv).
  exists query, formatted. split; [exact Hq|]. split; [exact Hf|].
  rewrite recorded_operation_annotations in Hv.
  destruct Hv as [<- | []]. reflexivity.
Qed.

(** When the hook returns as in [after_returns], both are on the span. *)
Lemma after_returns_recorded p s seg query formatted :
  attached_span s = Some (VSegment (Some seg)) ->
  renderQuery p (st_tx s) = Ret query ->
  formatQuery p query = Ret formatted ->
  sdk_quiet (st_xray s) ->
  fst (after p s) = Ret tt
  /\ recorded seg "db.query" (new_events s (snd (after p s)))
     = [VString formatted]
  /\ recorded seg "db.operation" (new_events s (snd (after p s)))
     = [VString (dbOperation formatted)].
Proof.
  intros H Hq Hf Hquiet.
  rewrite (after_returns p s seg query formatted H Hq Hf Hquiet).
  cbn [fst snd]. rewrite new_events_appended. split; [reflexivity|]. split.
  - apply recorded_annotations_query. reflexivity.
  - apply recorded_annotations_operation. reflexivity.
Qed.

End HookRuns.

(** C1. An after hook that finds a span attached to the instance closes that
    span, once, as the last thing it does, whatever the formatter, the
    dialector and the attachments do, panics included; an after hook that
    finds nothing under the key touches no span and returns. *)
Theorem after_closes_span_once (p : Plugin) (s : State) :
  (forall seg,
      attached_span s = Some (VSegment (Some seg)) ->
      closed (new_events s (snd (after p s))) = [seg]
      /\ exists done, new_events s (snd (after p s)) = done ++ [EvClose seg None])
  /\ (attached_span s = None -> after p s = (Ret tt, s)).
Proof.
  split.
  - intros seg H.
    destruct (after_run p s seg H) as (done & Hev & Hclosed & _).
    rewrite Hev, closed_app, Hclosed. split; [reflexivity | eauto].
  - intros H. apply after_not_attached. intros seg. rewrite H. discriminate.
Qed.

(** The formatter redacts, the SDK panics on the operation keyword: the hook
    panics and the span is closed all the same. *)
Lemma after_closes_span_once_witness :
  (attached_span Sample.started_faulty = Some (VSegment (Some 4))
   /\ fst (after Sample.redacting Sample.started_faulty) = Panic "xray"
   /\ closed (new_events Sample.started_faulty
                (snd (after Sample.redacting Sample.started_faulty))) = [4])
  /\ (attached_span Sample.fresh_instance = None
      /\ after Sample.plain Sample.fresh_instance = (Ret tt, Sample.fresh_instance)).
Proof.
  split.
  - split; [reflexivity|]. split; [reflexivity|].
    apply (proj1 (after_closes_span_once Sample.redacting Sample.started_faulty) 4).
    reflexivity.
  - split; [reflexivity|].
    apply (proj2 (after_closes_span_once Sample.plain Sample.fresh_instance)).
    reflexivity.
Defined.

(** C3. With a span attached, a terminal error of the ignorable set leaves
    the span without error marker in every run.  In every run the span gets
    no marker or one, and a marker it gets is the error of the instance, an
    error outside the ignorable set.  When the dialector and the formatter
    return and the SDK takes the attachments, the hook returns and any other
    error is attached to the span as its one error marker. *)
Theorem after_error_marker (p : Plugin) (s : State) (seg : nat) :
  attached_span s = Some (VSegment (Some seg)) ->
  (ignorable (Error (st_tx s)) = true ->
   error_markers (new_events s (snd (after p s))) = [])
  /\ (error_markers (new_events s (snd (after p s))) = []
      \/ exists e,
           Error (st_tx s) = Some e /\ ignorable (Some e) = false
           /\ error_markers (new_events s (snd (after p s))) = [(seg, e)])
  /\ (forall e query formatted,
        Error (st_tx s) = Some e -> ignorable (Some e) = false ->
        renderQuery p (st_tx s) = Ret query ->
        formatQuery p query = Ret formatted ->
        sdk_quiet (st_xray s) ->
        fst (after p s) = Ret tt
        /\ error_markers (new_events s (snd (after p s))) = [(seg, e)]).
Proof.
  intros H. split; [|split].
  - intros Hign.
    destruct (after_markers_prefix p s seg H) as [Hnone | (e & He & Hrep & _)];
      [exact Hnone|].
    rewrite He, Hrep in Hign. discriminate.
  - apply after_markers_prefix, H.
  - intros e query formatted He Hrep Hq Hf Hquiet.
    rewrite (after_returns p s seg query formatted H Hq Hf Hquiet).
    split; [reflexivity|]. cbn [snd].
    rewrite new_events_appended, error_markers_app, error_markers_annotations.
    rewrite He, Hrep. reflexivity.
Qed.

Lemma after_error_marker_witness :
  (ignorable (Error (st_tx (Sample.started (Some ErrNoRows)))) = true
   /\ error_markers
        (new_events (Sample.started (Some ErrNoRows))
           (snd (after Sample.plain (Sample.started (Some ErrNoRows))))) = [])
  /\ (sdk_quiet (st_xray (Sample.started (Some (ErrWrap "query: EOF" EOF))))
      /\ fst (after Sample.plain (Sample.started (Some (ErrWrap "query: EOF" EOF))))
         = Ret tt
      /\ error_markers
           (new_events (Sample.started (Some (ErrWrap "query: EOF" EOF)))
              (snd (after Sample.plain
                      (Sample.started (Some (ErrWrap "query: EOF" EOF))))))
         = [(4, ErrWrap "query: EOF" EOF)]).
Proof.
  split.
  - split; [reflexivity|].
    apply (proj1 (after_error_marker Sample.plain
                    (Sample.started (Some ErrNoRows)) 4 eq_refl)).
    reflexivity.
  - split; [intros log ev; reflexivity|].
    apply (proj2 (proj2 (after_error_marker Sample.plain
                           (Sample.started (Some (ErrWrap "query: EOF" EOF)))
                           4 eq_refl))
             (ErrWrap "query: EOF" EOF)
             "SELECT * FROM users WHERE id = ? -- vars: ?"
             "SELECT * FROM users WHERE id = ? -- vars: ?");
      try reflexivity.
    intros log ev. reflexivity.
Defined.

(** C4. The before hook always returns and leaves the error of the instance
    as it was.  Without a segment in the context it first begins the
    top-level segment [FallbackParent]; then it begins a subsegment named
    [spanName] under the segment of the context, puts the context that
    carries this subsegment into the statement and stores the subsegment,
    which is never nil, under the key of the side-channel. *)
Theorem before_opens_span (p : Plugin) (spanName : string) (s : State) :
  let ctx := Context_ (Statement (st_tx s)) in
  let n := xr_next (st_xray s) in
  let seg := match GetSegment ctx with None => S n | Some _ => n end in
  let s' := snd (before p spanName s) in
  fst (before p spanName s) = Ret tt
  /\ new_events s s' =
     match GetSegment ctx with
     | None => [EvBeginSegment n "FallbackParent";
                EvBeginSubsegment (S n) n spanName]
     | Some parent => [EvBeginSubsegment n parent spanName]
     end
  /\ Context_ (Statement (st_tx s')) = WithSegment ctx seg
  /\ Settings (Statement (st_tx s')) =
     <[xray_subsegment := VSegment (Some seg)]> (Settings (Statement (st_tx s)))
  /\ attached_span s' = Some (VSegment (Some seg))
  /\ Error (st_tx s') = Error (st_tx s).
Proof.
  destruct s as [[[ctx sql vars table rows settings] err d] [next log faults]].
  unfold attached_span, new_events.
  destruct ctx as [[parent|] values];
    cbv [before mbind M_bind mret M_ret get_tx BeginSegment BeginSubsegment
         set_Context InstanceSet GetSegment WithSegment record fresh];
    cbn -[xray_subsegment].
  - rewrite drop_app_length, lookup_insert_eq. repeat split; reflexivity.
  - rewrite <- app_assoc, drop_app_length, lookup_insert_eq.
    repeat split; reflexivity.
Qed.

(** C5. With [excludeQueryVars] the statement text is the SQL as it stands:
    the bound parameters and the dialector have no influence on what the
    hook returns and records; in every run a [db.query] on the span is what
    the formatter made of that SQL; and when the formatter returns and the
    SDK takes the attachments, the hook returns and that text is recorded,
    the SQL verbatim when no formatter is configured.  Without
    [excludeQueryVars] the same holds of the text [Explain] renders from the
    SQL and the bound parameters. *)
Theorem after_query_text (p : Plugin) (s : State) (seg : nat) :
  attached_span s = Some (VSegment (Some seg)) ->
  (excludeQueryVars p = true ->
   (forall vars d,
       fst (after p (with_parameters vars d s)) = fst (after p s)
       /\ st_xray (snd (after p (with_parameters vars d s)))
          = st_xray (snd (after p s)))
   /\ (forall v,
         In v (recorded seg "db.query" (new_events s (snd (after p s)))) ->
         exists formatted,
           formatQuery p (SQL (Statement (st_tx s))) = Ret formatted
           /\ v = VString formatted)
   /\ (forall formatted,
         formatQuery p (SQL (Statement (st_tx s))) = Ret formatted ->
         sdk_quiet (st_xray s) ->
         fst (after p s) = Ret tt
         /\ recorded seg "db.query" (new_events s (snd (after p s)))
            = [VString formatted])
   /\ (queryFormatter p = None -> sdk_quiet (st_xray s) ->
       fst (after p s) = Ret tt
       /\ recorded seg "db.query" (new_events s (snd (after p s)))
          = [VString (SQL (Statement (st_tx s)))]))
  /\ (excludeQueryVars p = false ->
      (forall v,
          In v (recorded seg "db.query" (new_events s (snd (after p s)))) ->
          exists query formatted,
            Explain (dialector (st_tx s)) (SQL (Statement (st_tx s)))
              (Vars (Statement (st_tx s))) = Ret query
            /\ formatQuery p query = Ret formatted
            /\ v = VString formatted)
      /\ (forall query formatted,
            Explain (dialector (st_tx s)) (SQL (Statement (st_tx s)))
              (Vars (Statement (st_tx s))) = Ret query ->
            formatQuery p query = Ret formatted ->
            sdk_quiet (st_xray s) ->
            fst (after p s) = Ret tt
            /\ recorded seg "db.query" (new_events s (snd (after p s)))
               = [VString formatted])).
Proof.
  intros H. split.
  - intros Hex.
    assert (Hrender : renderQuery p (st_tx s) = Ret (SQL (Statement (st_tx s))))
      by (unfold renderQuery; rewrite Hex; reflexivity).
    split; [|split; [|split]].
    + intros vars d.
      rewrite (after_attached p (with_parameters vars d s) seg H).
      rewrite (after_attached p s seg H).
      destruct (annotate_parameters p s seg vars d Hex) as [Hr Hx].
      split; [exact Hr|]. unfold appended. cbn [snd st_xray].
      rewrite Hx. reflexivity.
    + intros v Hin.
      destruct (after_query_only p s seg v H Hin)
        as (query & formatted & Hq & Hf & ->).
      rewrite Hrender in Hq. injection Hq as <-. eauto.
    + intros formatted Hf Hquiet.
      destruct (after_returns_recorded p s seg _ formatted H Hrender Hf Hquiet)
        as (Hret & Hrec & _).
      split; assumption.
    + intros Hnone Hquiet.
      assert (Hf : formatQuery p (SQL (Statement (st_tx s)))
                   = Ret (SQL (Statement (st_tx s))))
        by (unfold formatQuery; rewrite Hnone; reflexivity).
      destruct (after_returns_recorded p s seg _ _ H Hrender Hf Hquiet)
        as (Hret & Hrec & _).
      split; assumption.
  - intros Hex.
    assert (Hrender : renderQuery p (st_tx s)
                      = Explain (dialector (st_tx s)) (SQL (Statement (st_tx s)))
                          (Vars (Statement (st_tx s))))
      by (unfold renderQuery; rewrite Hex; reflexivity).
    split.
    + intros v Hin.
      destruct (after_query_only p s seg v H Hin)
        as (query & formatted & Hq & Hf & ->).
      rewrite Hrender in Hq. eauto.
    + intros query formatted Hq Hf Hquiet. rewrite <- Hrender in Hq.
      destruct (after_returns_recorded p s seg query formatted H Hq Hf Hquiet)
        as (Hret & Hrec & _).
      split; assumption.
Qed.

Lemma after_query_text_witness :
  (sdk_quiet (st_xray (Sample.started None))
   /\ fst (after Sample.unexpanded (Sample.started None)) = Ret tt
   /\ recorded 4 "db.query"
        (new_events (Sample.started None)
           (snd (after Sample.unexpanded (Sample.started None))))
      = [VString "SELECT * FROM users WHERE id = ?"]
   /\ fst (after Sample.unexpanded
             (with_parameters [] {| Explain := Sample.panicking |}
                (Sample.started None)))
      = fst (after Sample.unexpanded (Sample.started None)))
  /\ (Sample.explain "SELECT * FROM users WHERE id = ?" [VInt 7]
      = Ret "SELECT * FROM users WHERE id = ? -- vars: ?"
      /\ fst (after Sample.plain (Sample.started None)) = Ret tt
      /\ recorded 4 "db.query"
           (new_events (Sample.started None)
              (snd (after Sample.plain (Sample.started None))))
         = [VString "SELECT * FROM users WHERE id = ? -- vars: ?"]).
Proof.
  assert (Hquiet : sdk_quiet (st_xray (Sample.started None)))
    by (intros log ev; reflexivity).
  split.
  - split; [exact Hquiet|].
    destruct (proj1 (after_query_text Sample.unexpanded (Sample.started None) 4
                       eq_refl) eq_refl)
      as (Hind & _ & _ & Hverbatim).
    destruct (Hverbatim eq_refl Hquiet) as [Hret Hrec].
    split; [exact Hret|]. split; [exact Hrec|].
    apply (Hind [] {| Explain := Sample.panicking |}).
  - split; [reflexivity|].
    apply (proj2 (proj2 (after_query_text Sample.plain (Sample.started None) 4
                           eq_refl) eq_refl)
             "SELECT * FROM users WHERE id = ? -- vars: ?"
             "SELECT * FROM users WHERE id = ? -- vars: ?");
      [reflexivity | reflexivity | exact Hquiet].
Defined.

(** C6. [formatQuery] is the configured formatter, or the identity when none
    is configured.  In every run a [db.query] on the span is what
    [formatQuery] made of the rendered statement and a [db.operation] is
    [dbOperation] of that formatted text; when the dialector and the
    formatter return and the SDK takes the attachments, the hook returns and
    both are recorded. *)
Theorem after_formats_query (p : Plugin) (s : State) (seg : nat) :
  attached_span s = Some (VSegment (Some seg)) ->
  (forall query,
      formatQuery p query =
      match queryFormatter p with
      | Some f => f query
      | None => Ret query
      end)
  /\ (forall v,
        In v (recorded seg "db.query" (new_events s (snd (after p s)))) ->
        exists query formatted,
          renderQuery p (st_tx s) = Ret query
          /\ formatQuery p query = Ret formatted
          /\ v = VString formatted)
  /\ (forall v,
        In v (recorded seg "db.operation" (new_events s (snd (after p s)))) ->
        exists query formatted,
          renderQuery p (st_tx s) = Ret query
          /\ formatQuery p query = Ret formatted
          /\ v = VString (dbOperation formatted))
  /\ (forall query formatted,
        renderQuery p (st_tx s) = Ret query ->
        formatQuery p query = Ret formatted ->
        sdk_quiet (st_xray s) ->
        fst (after p s) = Ret tt
        /\ recorded seg "db.query" (new_events s (snd (after p s)))
           = [VString formatted]
        /\ recorded seg "db.operation" (new_events s (snd (after p s)))
           = [VString (dbOperation formatted)]).
Proof.
  intros H. split; [reflexivity|]. split; [|split].
  - intros v. apply after_query_only, H.
  - intros v. apply after_operation_only, H.
  - intros query formatted. apply after_returns_recorded, H.
Qed.

(** The statement is a [SELECT]; the formatter turns it into a comment and
    an [UPDATE]: the span records the formatted text and [update]. *)
Lemma after_formats_query_witness :
  sdk_quiet (st_xray (Sample.started None))
  /\ renderQuery Sample.redacting (st_tx (Sample.started None))
     = Ret "SELECT * FROM users WHERE id = ?"
  /\ formatQuery Sample.redacting "SELECT * FROM users WHERE id = ?"
     = Ret "/* redacted */ UPDATE t SET a = ?"
  /\ fst (after Sample.redacting (Sample.started None)) = Ret tt
  /\ recorded 4 "db.query"
       (new_events (Sample.started None)
          (snd (after Sample.redacting (Sample.started None))))
     = [VString "/* redacted */ UPDATE t SET a = ?"]
  /\ recorded 4 "db.operation"
       (new_events (Sample.started None)
          (snd (after Sample.redacting (Sample.started None))))
     = [VString "update"].
Proof.
  assert (Hquiet : sdk_quiet (st_xray (Sample.started None)))
    by (intros log ev; reflexivity).
  split; [exact Hquiet|]. split; [reflexivity|]. split; [reflexivity|].
  apply (proj2 (proj2 (proj2 (after_formats_query Sample.redacting
                                (Sample.started None) 4 eq_refl)))
           "SELECT * FROM users WHERE id = ?"
           "/* redacted */ UPDATE t SET a = ?");
    [reflexivity | reflexivity | exact Hquiet].
Defined.

(** C8. In every run of a hook that finds its span, the metadata on the span
    are among the formatted statement, its operation keyword, the table name
    and the affected-row count; a table name is only attached when it is not
    empty and a row count only when it is not -1.  When the dialector and
    the formatter return and the SDK takes the attachments, the hook returns
    and the span has the statement and the keyword, then the table name if
    and only if it is not empty, then the row count if and only if it is not
    -1, and nothing else. *)
Theorem after_metadata (p : Plugin) (s : State) (seg : nat) :
  attached_span s = Some (VSegment (Some seg)) ->
  let stmt := Statement (st_tx s) in
  let evs := new_events s (snd (after p s)) in
  let expected formatted :=
    [(seg, "db.query", VString formatted);
     (seg, "db.operation", VString (dbOperation formatted))]
    ++ (if decide (Table stmt = "") then []
        else [(seg, "db.table", VString (Table stmt))])
    ++ (if decide (RowsAffected stmt = (-1)%Z) then []
        else [(seg, "db.rows.affected", VInt (RowsAffected stmt))]) in
  (forall entry,
      In entry (metadata evs) -> exists formatted, In entry (expected formatted))
  /\ (forall v,
        In (seg, "db.table", v) (metadata evs) ->
        Table stmt <> "" /\ v = VString (Table stmt))
  /\ (forall v,
        In (seg, "db.rows.affected", v) (metadata evs) ->
        RowsAffected stmt <> (-1)%Z /\ v = VInt (RowsAffected stmt))
  /\ (forall query formatted,
        renderQuery p (st_tx s) = Ret query ->
        formatQuery p query = Ret formatted ->
        sdk_quiet (st_xray s) ->
        fst (after p s) = Ret tt
        /\ metadata evs = expected formatted
        /\ ((exists v, In (seg, "db.table", v) (metadata evs))
            <-> Table stmt <> "")
        /\ ((exists v, In (seg, "db.rows.affected", v) (metadata evs))
            <-> RowsAffected stmt <> (-1)%Z)).
Proof.
  intros H stmt evs expected.
  assert (Honly : forall entry,
             In entry (metadata evs) ->
             exists formatted, In entry (expected formatted)).
  { intros entry Hin.
    destruct (after_metadata_only p s seg entry H Hin) as [formatted Hf].
    exists formatted. rewrite metadata_annotations in Hf. exact Hf. }
  split; [exact Honly|]. split; [|split].
  - intros v Hin. destruct (Honly _ Hin) as [formatted Hf]. unfold expected in Hf.
    destruct (decide (Table stmt = "")) as [Ht|Ht];
      destruct (decide (RowsAffected stmt = (-1)%Z)) as [Hr|Hr];
      cbn [app In] in Hf; intuition congruence.
  - intros v Hin. destruct (Honly _ Hin) as [formatted Hf]. unfold expected in Hf.
    destruct (decide (Table stmt = "")) as [Ht|Ht];
      destruct (decide (RowsAffected stmt = (-1)%Z)) as [Hr|Hr];
      cbn [app In] in Hf; intuition congruence.
  - intros query formatted Hq Hf Hquiet.
    assert (Hmeta : metadata evs = expected formatted).
    { unfold evs. rewrite (after_returns p s seg query formatted H Hq Hf Hquiet).
      cbn [snd]. rewrite new_events_appended, metadata_app, app_nil_r.
      apply metadata_annotations. }
    split.
    { rewrite (after_returns p s seg query formatted H Hq Hf Hquiet).
      reflexivity. }
    split; [exact Hmeta|]. rewrite Hmeta. unfold expected.
    destruct (decide (Table stmt = "")) as [Ht|Ht];
      destruct (decide (RowsAffected stmt = (-1)%Z)) as [Hr|Hr];
      cbn [app In]; split; split;
      try (intros [v Hin]; intuition congruence);
      try (intros _; eexists; intuition eauto; fail);
      try (intros Hne; contradiction).
Qed.

Lemma after_metadata_witness :
  sdk_quiet (st_xray (Sample.started None))
  /\ fst (after Sample.plain (Sample.started None)) = Ret tt
  /\ metadata (new_events (Sample.started None)
                 (snd (after Sample.plain (Sample.started None)))) =
     [(4, "db.query", VString "SELECT * FROM users WHERE id = ? -- vars: ?");
      (4, "db.operation", VString "select");
      (4, "db.table", VString "users");
      (4, "db.rows.affected", VInt 1)]
  /\ ((exists v, In (4, "db.table", v)
                   (metadata (new_events (Sample.started None)
                                (snd (after Sample.plain (Sample.started None))))))
      <-> "users" <> "")
  /\ ((exists v, In (4, "db.rows.affected", v)
                   (metadata (new_events (Sample.started None)
                                (snd (after Sample.plain (Sample.started None))))))
      <-> 1%Z <> (-1)%Z).
Proof.
  assert (Hquiet : sdk_quiet (st_xray (Sample.started None)))
    by (intros log ev; reflexivity).
  split; [exact Hquiet|].
  apply (proj2 (proj2 (proj2 (after_metadata Sample.plain (Sample.started None) 4
                                eq_refl)))
           "SELECT * FROM users WHERE id = ? -- vars: ?"
           "SELECT * FROM users WHERE id = ? -- vars: ?");
    [reflexivity | reflexivity | exact Hquiet].
Defined.

(** C10. When the value under the key is not a non-nil segment pointer, the
    after hook returns at once: the instance and the record of the SDK are
    as they were, nothing is attached or closed, and the hook does not
    panic. *)
Theorem after_ignores_other_values (p : Plugin) (s : State) (v : value) :
  attached_span s = Some v ->
  (forall seg, v <> VSegment (Some seg)) ->
  after p s = (Ret tt, s) /\ new_events s (snd (after p s)) = [].
Proof.
  intros H Hv.
  assert (Hrun : after p s = (Ret tt, s)).
  { apply after_not_attached. intros seg Hseg. rewrite H in Hseg.
    injection Hseg as ->. exact (Hv seg eq_refl). }
  split; [exact Hrun|]. rewrite Hrun. unfold new_events. simpl.
  apply drop_all.
Qed.

Lemma after_ignores_other_values_witness :
  after Sample.plain (Sample.foreign (VSegment None))
  = (Ret tt, Sample.foreign (VSegment None))
  /\ after Sample.plain (Sample.foreign (VString "span"))
     = (Ret tt, Sample.foreign (VString "span")).
Proof.
  split.
  - apply (after_ignores_other_values Sample.plain
             (Sample.foreign (VSegment None)) (VSegment None) eq_refl).
    discriminate.
  - apply (after_ignores_other_values Sample.plain
             (Sample.foreign (VString "span")) (VString "span") eq_refl).
    discriminate.
Defined.

(** ** Registration *)

Section Registration.

Lemma Initialize_loop_run hs st :
  firstErr (Initialize_loop hs st) =
    match firstErr st with
    | Some e => Some e
    | None => first_failure (fst (register_each hs (init_db st)))
    end
  /\ init_db (Initialize_loop hs st) = snd (register_each hs (init_db st)).
Proof.
  revert st. induction hs as [|h hs IH]; intros st.
  - simpl. destruct (firstErr st); split; reflexivity.
  - cbn [Initialize_loop fold_left register_each].
    fold (Initialize_loop hs (Initialize_step st h)).
    destruct (IH (Initialize_step st h)) as [IHerr IHdb].
    rewrite IHerr, IHdb. unfold Initialize_step.
    destruct (Register (hook_callback h) (String.append "xray:" (hook_name h))
                (hook_fn h) (init_db st)) as [err db1].
    destruct (register_each hs db1) as [rest db2] eqn:Hrest.
    destruct err as [e|], (firstErr st) as [e0|]; cbn; rewrite Hrest;
      split; reflexivity.
Qed.

Lemma Initialize_loop_fresh hs db :
  firstErr (Initialize_loop hs {| firstErr := None; init_db := db; init_log := [] |})
  = first_failure (fst (register_each hs db))
  /\ init_db (Initialize_loop hs {| firstErr := None; init_db := db; init_log := [] |})
     = snd (register_each hs db).
Proof.
  exact (Initialize_loop_run hs
           {| firstErr := None; init_db := db; init_log := [] |}).
Qed.

Lemma Initialize_run p db :
  firstErr (Initialize p db) = first_failure (fst (register_each (hooks p) db))
  /\ init_db (Initialize p db) = snd (register_each (hooks p) db).
Proof. unfold Initialize. apply Initialize_loop_fresh. Qed.

Lemma register_each_calls hs db : map fst (fst (register_each hs db)) = hs.
Proof.
  revert db. induction hs as [|h hs IH]; intros db; [reflexivity|].
  cbn [register_each].
  destruct (Register (hook_callback h) (String.append "xray:" (hook_name h))
              (hook_fn h) db) as [err db1].
  specialize (IH db1). destruct (register_each hs db1) as [rest db2].
  simpl in *. congruence.
Qed.

Lemma register_each_callbacks hs db k :
  host_callbacks (snd (register_each hs db)) k =
  host_callbacks db k ++ map callback_of (hooks_of k hs).
Proof.
  revert db. induction hs as [|h hs IH]; intros db.
  - simpl. rewrite app_nil_r. reflexivity.
  - cbn [register_each].
    destruct (Register (hook_callback h) (String.append "xray:" (hook_name h))
                (hook_fn h) db) as [err db1] eqn:Hreg.
    specialize (IH db1). destruct (register_each hs db1) as [rest db2].
    cbn [snd] in *. rewrite IH.
    unfold Register in Hreg. injection Hreg as _ <-. cbn [host_callbacks].
    unfold hooks_of. rewrite filter_cons.
    destruct (decide (k = reg_processor (hook_callback h))) as [->|Hne].
    + rewrite decide_True by reflexivity. cbn [map].
      rewrite <- app_assoc. reflexivity.
    + rewrite decide_False by congruence. reflexivity.
Qed.

Lemma first_failure_none calls :
  Forall (fun c => snd c = None) calls -> first_failure calls = None.
Proof.
  induction 1 as [|[h err] calls Hc _ IH]; [reflexivity|].
  simpl in Hc. subst err. exact IH.
Qed.

(** The two entries of the table of a kind, as the callbacks they become. *)
Lemma hooks_of_kind p k :
  map callback_of (hooks_of k (hooks p)) = [before_callback p k; after_callback p k].
Proof. destruct k; lazy -[before after]; reflexivity. Qed.

Lemma Initialize_callbacks p db k :
  host_callbacks (init_db (Initialize p db)) k
  = host_callbacks db k ++ [before_callback p k; after_callback p k].
Proof.
  destruct (Initialize_run p db) as [_ Hdb].
  rewrite Hdb, register_each_callbacks, hooks_of_kind. reflexivity.
Qed.

Lemma first_failure_split ok h e rest :
  Forall (fun c : hook * option error => snd c = None) ok ->
  first_failure (ok ++ (h, Some e) :: rest)
  = Some (ErrWrap
            (String.append "callback register "
               (String.append (hook_name h)
                  (String.append " failed: " (error_message e))))
            e).
Proof.
  induction 1 as [|[h0 err] ok Hc _ IH]; [reflexivity|].
  simpl in Hc. subst err. exact IH.
Qed.

End Registration.

(** C7. [Initialize] has one hook for each operation kind and phase, each
    under a name of its own, and calls [Register] for every one of them,
    the earlier calls having failed or not: whatever the host answers, each
    processor ends up with its callbacks and, behind them, the before hook
    of the kind, registered before the callback of the host under
    [xray:before:<kind>] with the handler [before] of the span name of the
    kind, and the after hook, registered after that callback under
    [xray:after:<kind>] with the handler [after].  [Initialize] returns nil
    when no call failed, and otherwise an error that wraps the failure of
    the first call that failed, with the name of its hook in the message. *)
Theorem Initialize_registers_all (p : Plugin) (db : Host) :
  let calls := fst (register_each (hooks p) db) in
  (forall k before_phase,
      length (List.filter (registered_for k before_phase) (hooks p)) = 1)
  /\ NoDup (map hook_name (hooks p))
  /\ map fst calls = hooks p
  /\ (forall k,
        map cb_name (host_callbacks (init_db (Initialize p db)) k)
        = map cb_name (host_callbacks db k)
          ++ map (fun h => String.append "xray:" (hook_name h))
               (hooks_of k (hooks p)))
  /\ init_db (Initialize p db) = snd (register_each (hooks p) db)
  /\ firstErr (Initialize p db) = first_failure calls
  /\ (Forall (fun c => snd c = None) calls -> firstErr (Initialize p db) = None)
  /\ (forall k,
        host_callbacks (init_db (Initialize p db)) k
        = host_callbacks db k
          ++ [ {| cb_processor := k;
                  cb_position := Before (kind_anchor k);
                  cb_name := String.append "xray:before:" (kind_name k);
                  cb_handler := before p (kind_span k) |};
               {| cb_processor := k;
                  cb_position := After (kind_anchor k);
                  cb_name := String.append "xray:after:" (kind_name k);
                  cb_handler := after p |} ])
  /\ (forall ok h e rest,
        calls = ok ++ (h, Some e) :: rest ->
        Forall (fun c => snd c = None) ok ->
        firstErr (Initialize p db)
        = Some (ErrWrap
                  (String.append "callback register "
                     (String.append (hook_name h)
                        (String.append " failed: " (error_message e))))
                  e)).
Proof.
  intros calls.
  destruct (Initialize_run p db) as [Herr Hdb].
  split; [intros [] []; lazy -[before after]; reflexivity|].
  split.
  { cbn [map hooks hook_name].
    apply (bool_decide_unpack _). vm_compute. exact I. }
  split; [apply register_each_calls|].
  split.
  { intros k. rewrite Hdb, register_each_callbacks, map_app, map_map.
    reflexivity. }
  split; [exact Hdb|]. split; [exact Herr|].
  split.
  { intros Hall. rewrite Herr. apply first_failure_none, Hall. }
  split.
  { intros k. apply Initialize_callbacks. }
  intros ok h e rest Hcalls Hok. rewrite Herr. fold calls. rewrite Hcalls.
  apply first_failure_split, Hok.
Qed.

(** A host that takes every callback; and one that rejects two of them, where
    the first rejection is the one reported and the callbacks behind it are
    registered all the same. *)
Lemma Initialize_registers_all_witness :
  (Forall (fun c => snd c = None)
     (fst (register_each (hooks Sample.plain) (Sample.host [])))
   /\ firstErr (Initialize Sample.plain (Sample.host [])) = None)
  /\ (fst (register_each (hooks Sample.plain)
             (Sample.host ["xray:after:select"; "xray:before:row"]))
      = map (fun h => (h, None)) (take 3 (hooks Sample.plain))
        ++ ({| hook_callback := cb_After Query "gorm:query";
               hook_fn := after Sample.plain;
               hook_name := "after:select" |},
            Some (ErrOther "conflicting callback xray:after:select"))
           :: drop 4 (fst (register_each (hooks Sample.plain)
                             (Sample.host ["xray:after:select"; "xray:before:row"])))
      /\ firstErr (Initialize Sample.plain
                     (Sample.host ["xray:after:select"; "xray:before:row"]))
         = Some (ErrWrap
                   "callback register after:select failed: conflicting callback xray:after:select"
                   (ErrOther "conflicting callback xray:after:select"))
      /\ map cb_name
           (host_callbacks
              (init_db (Initialize Sample.plain
                          (Sample.host ["xray:after:select"; "xray:before:row"])))
              Raw)
         = ["xray:before:raw"; "xray:after:raw"]).
Proof.
  assert (H : Forall (fun c => snd c = None)
                (fst (register_each (hooks Sample.plain) (Sample.host [])))).
  { lazy -[before after]. repeat constructor. }
  assert (Hsplit :
            fst (register_each (hooks Sample.plain)
                   (Sample.host ["xray:after:select"; "xray:before:row"]))
            = map (fun h => (h, None)) (take 3 (hooks Sample.plain))
              ++ ({| hook_callback := cb_After Query "gorm:query";
                     hook_fn := after Sample.plain;
                     hook_name := "after:select" |},
                  Some (ErrOther "conflicting callback xray:after:select"))
                 :: drop 4 (fst (register_each (hooks Sample.plain)
                                   (Sample.host ["xray:after:select";
                                                 "xray:before:row"])))).
  { lazy -[before after]. reflexivity. }
  destruct (Initialize_registers_all Sample.plain
              (Sample.host ["xray:after:select"; "xray:before:row"]))
    as (_ & _ & _ & _ & _ & _ & _ & Hcallbacks & Hfirst).
  split; [split; [exact H|]|split; [exact Hsplit|split]].
  - apply (Initialize_registers_all Sample.plain (Sample.host [])). exact H.
  - apply (Hfirst _ _ _ _ Hsplit). lazy -[before after]. repeat constructor.
  - rewrite (Hcallbacks Raw). reflexivity.
Defined.

(** C9. No hook reads [excludeMetrics]: two plugins that agree on
    [excludeQueryVars] and on the formatter have the same before hooks and
    the same after hook, and register the same hooks.  The options the
    package exports leave the field at its zero value. *)
Theorem excludeMetrics_never_read (p1 p2 : Plugin) :
  excludeQueryVars p1 = excludeQueryVars p2 ->
  queryFormatter p1 = queryFormatter p2 ->
  (forall spanName, before p1 spanName = before p2 spanName)
  /\ after p1 = after p2
  /\ hooks p1 = hooks p2
  /\ (forall opts,
        Forall exported_option opts -> excludeMetrics (NewPlugin opts) = false).
Proof.
  intros Hvars Hfmt.
  destruct p1 as [v1 m1 f1], p2 as [v2 m2 f2]. simpl in Hvars, Hfmt. subst.
  split; [reflexivity|]. split; [reflexivity|]. split; [reflexivity|].
  intros opts Hopts. unfold NewPlugin. cbn [excludeMetrics].
  assert (Hfold : forall cfg,
             ExcludeMetrics cfg = false ->
             ExcludeMetrics (fold_left (fun cfg opt => opt cfg) opts cfg) = false).
  { induction Hopts as [|opt opts Hopt _ IH]; intros cfg Hcfg; [exact Hcfg|].
    simpl. apply IH. destruct Hopt; exact Hcfg. }
  apply Hfold. reflexivity.
Qed.

Lemma excludeMetrics_never_read_witness :
  after {| excludeQueryVars := true; excludeMetrics := true;
           queryFormatter := Some Sample.redact |}
  = after {| excludeQueryVars := true; excludeMetrics := false;
             queryFormatter := Some Sample.redact |}
  /\ excludeMetrics
       (NewPlugin [WithExcludeQueryVars true;
                   WithQueryFormatter (Some Sample.redact)]) = false.
Proof.
  split.
  - apply (excludeMetrics_never_read
             {| excludeQueryVars := true; excludeMetrics := true;
                queryFormatter := Some Sample.redact |}
             {| excludeQueryVars := true; excludeMetrics := false;
                queryFormatter := Some Sample.redact |}); reflexivity.
  - apply (excludeMetrics_never_read Sample.plain Sample.plain eq_refl eq_refl).
    repeat constructor.
Defined.

(** * Further properties *)

(** ** The classifier on the shapes of a statement *)

Section ClassifierFacts.
Import Classifier.

Lemma strip_block_cons c t :
  strip_block_comments (c :: t) =
  match block_comment (c :: t) with
  | Some rest => strip_block_comments rest
  | None => c :: strip_block_comments t
  end.
Proof.
  remember (c :: t) as s eqn:Hs. revert c t Hs.
  funelim (strip_block_comments s); intros c0 t0 Hs; try discriminate.
  - injection Hs as <- <-. rewrite e. reflexivity.
  - injection Hs as <- <-. rewrite e. reflexivity.
Qed.

Lemma strip_line_cons c t :
  strip_line_comments (c :: t) =
  if line_comment_start (c :: t) then strip_line_comments (to_end_of_line t)
  else c :: strip_line_comments t.
Proof.
  remember (c :: t) as s eqn:Hs. revert c t Hs.
  funelim (strip_line_comments s); intros c0 t0 Hs; try discriminate.
  - injection Hs as <- <-. rewrite Heq. reflexivity.
  - injection Hs as <- <-. rewrite Heq. reflexivity.
Qed.

Lemma strip_block_nil : strip_block_comments [] = [].
Proof. reflexivity. Qed.

Lemma strip_line_nil : strip_line_comments [] = [].
Proof. reflexivity. Qed.

Lemma block_comment_not_slash c t :
  Ascii.eqb c "/" = false -> block_comment (c :: t) = None.
Proof. intros H. destruct t as [|d u]; simpl; [reflexivity | rewrite H; reflexivity]. Qed.

Lemma line_comment_start_plain c t :
  opens_no_comment c = true -> line_comment_start (c :: t) = false.
Proof.
  unfold opens_no_comment. intros H.
  apply andb_prop in H as [H Hhash]. apply andb_prop in H as [_ Hdash].
  apply negb_true_iff in Hhash, Hdash. simpl. rewrite Hhash, Hdash.
  destruct t; reflexivity.
Qed.

Lemma opens_no_comment_slash c :
  opens_no_comment c = true -> Ascii.eqb c "/" = false.
Proof.
  unfold opens_no_comment. intros H.
  apply andb_prop in H as [H _]. apply andb_prop in H as [H _].
  apply negb_true_iff in H. exact H.
Qed.

(** Bytes that open no comment pass both removals untouched. *)
Lemma strip_block_plain pre s :
  forallb opens_no_comment pre = true ->
  strip_block_comments (pre ++ s) = pre ++ strip_block_comments s.
Proof.
  induction pre as [|c pre IH]; intros H; [reflexivity|].
  simpl in H. apply andb_prop in H as [Hc Hpre]. simpl app.
  rewrite strip_block_cons, block_comment_not_slash
    by (apply opens_no_comment_slash, Hc).
  rewrite IH by exact Hpre. reflexivity.
Qed.

Lemma strip_line_plain pre s :
  forallb opens_no_comment pre = true ->
  strip_line_comments (pre ++ s) = pre ++ strip_line_comments s.
Proof.
  induction pre as [|c pre IH]; intros H; [reflexivity|].
  simpl in H. apply andb_prop in H as [Hc Hpre]. simpl app.
  rewrite strip_line_cons, line_comment_start_plain by exact Hc.
  rewrite IH by exact Hpre. reflexivity.
Qed.

(** Facts on single bytes, by running through the 256 of them. *)
Ltac each_byte c :=
  destruct c as [[] [] [] [] [] [] [] []]; vm_compute; try reflexivity;
  try discriminate; auto.

Lemma word_opens_no_comment c : is_word c = true -> opens_no_comment c = true.
Proof. each_byte c. Qed.

Lemma word_not_separator c : is_word c = true -> is_space_or_semi c = false.
Proof. each_byte c. Qed.

Lemma separator_opens_no_comment c :
  is_space_or_semi c = true -> opens_no_comment c = true.
Proof. each_byte c. Qed.

Lemma lower_word_is_word c : is_lower_word c = true -> is_word c = true.
Proof. each_byte c. Qed.

Lemma lower_byte_word c : is_word c = true -> is_lower_word (lower_byte c) = true.
Proof. each_byte c. Qed.

Lemma lower_byte_lower c : is_lower_word c = true -> lower_byte c = c.
Proof. each_byte c. Qed.

Lemma forallb_impl {A : Type} (f g : A -> bool) l :
  (forall x, f x = true -> g x = true) ->
  forallb f l = true -> forallb g l = true.
Proof.
  intros Hfg. induction l as [|x l IH]; [reflexivity|]. simpl.
  intros H. apply andb_prop in H as [Hx Hl].
  rewrite (Hfg x Hx), (IH Hl). reflexivity.
Qed.

Lemma leading_word_all s : forallb is_word (leading_word s) = true.
Proof.
  induction s as [|c t IH]; [reflexivity|]. simpl.
  destruct (is_word c) eqn:Hc; [simpl; rewrite Hc; exact IH | reflexivity].
Qed.

Lemma leading_word_app w y :
  forallb is_word w = true ->
  match y with [] => True | d :: _ => is_word d = false end ->
  leading_word (w ++ y) = w.
Proof.
  intros Hw Hy. induction w as [|c w IH]; simpl.
  - destruct y as [|d y]; [reflexivity|]. simpl. rewrite Hy. reflexivity.
  - simpl in Hw. apply andb_prop in Hw as [Hc Hw]. rewrite Hc, (IH Hw).
    reflexivity.
Qed.

Lemma strip_prefix_word c t : is_word c = true -> strip_prefix (c :: t) = c :: t.
Proof. intros H. simpl. rewrite (word_not_separator c H). reflexivity. Qed.

Lemma strip_prefix_app ws y :
  forallb is_space_or_semi ws = true -> strip_prefix (ws ++ y) = strip_prefix y.
Proof.
  induction ws as [|c ws IH]; intros H; [reflexivity|].
  simpl in H. apply andb_prop in H as [Hc Hws]. simpl. rewrite Hc. apply IH, Hws.
Qed.

Lemma list_ascii_of_string_app a b :
  list_ascii_of_string (String.append a b)
  = list_ascii_of_string a ++ list_ascii_of_string b.
Proof. induction a as [|c a IH]; simpl; [reflexivity | rewrite IH; reflexivity]. Qed.

Lemma dbOperation_classify_bytes s :
  dbOperation s = string_of_list_ascii (classify_bytes (list_ascii_of_string s)).
Proof. unfold dbOperation. rewrite dbOperation_bytes_classify. reflexivity. Qed.

Lemma strip_block_no_slash pre s :
  forallb not_slash pre = true ->
  strip_block_comments (pre ++ s) = pre ++ strip_block_comments s.
Proof.
  induction pre as [|c pre IH]; intros H; [reflexivity|].
  simpl in H. apply andb_prop in H as [Hc Hpre]. simpl app.
  rewrite strip_block_cons, block_comment_not_slash
    by (apply negb_true_iff, Hc).
  rewrite IH by exact Hpre. reflexivity.
Qed.

Lemma after_close_app body s :
  after_close body = None ->
  after_close (body ++ "*"%char :: "/"%char :: s) = Some s.
Proof.
  induction body as [|c [|d u] IH]; intros H.
  - reflexivity.
  - simpl. destruct (Ascii.eqb c "*"); reflexivity.
  - change (after_close (c :: d :: u))
      with (if Ascii.eqb c "*" && Ascii.eqb d "/" then Some u
            else after_close (d :: u)) in H.
    change (after_close ((c :: d :: u) ++ "*"%char :: "/"%char :: s))
      with (if Ascii.eqb c "*" && Ascii.eqb d "/"
            then Some (u ++ "*"%char :: "/"%char :: s)
            else after_close ((d :: u) ++ "*"%char :: "/"%char :: s)).
    destruct (Ascii.eqb c "*" && Ascii.eqb d "/"); [discriminate|].
    apply IH, H.
Qed.

Lemma strip_block_comment_at pre body s :
  forallb not_slash pre = true ->
  after_close body = None ->
  strip_block_comments
    (pre ++ "/"%char :: "*"%char :: body ++ "*"%char :: "/"%char :: s)
  = strip_block_comments (pre ++ s).
Proof.
  intros Hpre Hbody. rewrite !strip_block_no_slash by exact Hpre. f_equal.
  rewrite strip_block_cons. simpl block_comment.
  rewrite (after_close_app body s Hbody). reflexivity.
Qed.

Lemma to_end_of_line_app pre x :
  forallb not_newline pre = true ->
  to_end_of_line (pre ++ newline :: x) = newline :: x.
Proof.
  induction pre as [|c pre IH]; intros H; [reflexivity|].
  simpl in H. apply andb_prop in H as [Hc Hpre]. simpl.
  unfold not_newline in Hc. apply negb_true_iff in Hc. rewrite Hc.
  apply IH, Hpre.
Qed.

Lemma strip_line_newline x :
  strip_line_comments (newline :: x) = newline :: strip_line_comments x.
Proof. rewrite strip_line_cons. destruct x; reflexivity. Qed.

(** Behind a byte that is no word byte the line-comment removal leaves
    nothing, or something that starts with no word byte. *)
Lemma strip_line_head c x :
  is_word c = false ->
  match strip_line_comments (c :: x) with
  | [] => True
  | d :: _ => is_word d = false
  end.
Proof.
  intros Hc. rewrite strip_line_cons.
  destruct (line_comment_start (c :: x)); [|exact Hc].
  assert (Heol : to_end_of_line x = [] \/ exists y, to_end_of_line x = newline :: y).
  { clear. induction x as [|d x IH]; [left; reflexivity|]. simpl.
    destruct (Ascii.eqb_spec d newline) as [->|_]; [right; eauto | exact IH]. }
  destruct Heol as [-> | [y ->]]; [exact I|].
  rewrite strip_line_newline. reflexivity.
Qed.

Lemma classify_bytes_lower_word r :
  forallb is_lower_word r = true -> classify_bytes r = r.
Proof.
  intros H. unfold classify_bytes.
  assert (Hword : forallb is_word r = true)
    by (apply (forallb_impl is_lower_word); [apply lower_word_is_word | exact H]).
  assert (Hplain : forallb opens_no_comment r = true)
    by (apply (forallb_impl is_word); [apply word_opens_no_comment | exact Hword]).
  rewrite <- (app_nil_r r) at 1.
  rewrite strip_block_plain, strip_block_nil by exact Hplain.
  rewrite strip_line_plain, strip_line_nil by exact Hplain.
  rewrite app_nil_r.
  assert (Hprefix : strip_prefix r = r).
  { destruct r as [|c r]; [reflexivity|]. apply strip_prefix_word.
    simpl in Hword. apply andb_prop in Hword. apply Hword. }
  rewrite Hprefix. rewrite <- (app_nil_r r) at 1.
  rewrite leading_word_app by (exact Hword || exact I).
  clear -H. induction r as [|c r IH]; [reflexivity|].
  simpl in H. apply andb_prop in H as [Hc Hr]. simpl.
  rewrite (lower_byte_lower c Hc), (IH Hr). reflexivity.
Qed.

Lemma classify_bytes_alphabet s :
  forallb is_lower_word (classify_bytes s) = true.
Proof.
  unfold classify_bytes.
  generalize (leading_word_all
                (strip_prefix (strip_line_comments (strip_block_comments s)))).
  generalize (leading_word
                (strip_prefix (strip_line_comments (strip_block_comments s)))).
  intros l. induction l as [|c l IH]; [reflexivity|]. simpl.
  intros H. apply andb_prop in H as [Hc Hl].
  rewrite (lower_byte_word c Hc), (IH Hl). reflexivity.
Qed.

End ClassifierFacts.

(** X1. Whatever the statement, the keyword [dbOperation] returns is made of
    digits, lower-case ASCII letters and underscores only. *)
Theorem dbOperation_alphabet (s : string) :
  forallb is_lower_word (bytes_of (dbOperation s)) = true.
Proof.
  rewrite dbOperation_classify_bytes. unfold bytes_of.
  rewrite list_ascii_of_string_of_list_ascii. apply classify_bytes_alphabet.
Qed.

(** X2. Classifying a keyword gives the keyword back: [dbOperation] is
    idempotent. *)
Theorem dbOperation_idempotent (s : string) :
  dbOperation (dbOperation s) = dbOperation s.
Proof.
  rewrite (dbOperation_classify_bytes (dbOperation s)).
  rewrite (dbOperation_classify_bytes s) at 1.
  rewrite list_ascii_of_string_of_list_ascii.
  rewrite classify_bytes_lower_word by apply classify_bytes_alphabet.
  symmetry. apply dbOperation_classify_bytes.
Qed.

(** X3. A statement that starts with a word and goes on, if at all, with a
    byte that is neither a word byte nor [/] is classified as that word in
    lower case, whatever comes behind. *)
Theorem dbOperation_keyword (w tail : string) :
  w <> "" ->
  forallb is_word (bytes_of w) = true ->
  match tail with
  | EmptyString => True
  | String c _ => is_word c = false /\ c <> "/"%char
  end ->
  dbOperation (String.append w tail) = lower w.
Proof.
  intros Hne Hw Htail. rewrite dbOperation_classify_bytes. unfold lower.
  f_equal. rewrite list_ascii_of_string_app. unfold bytes_of in *.
  assert (Hplain : forallb opens_no_comment (list_ascii_of_string w) = true)
    by (apply (forallb_impl is_word); [apply word_opens_no_comment | exact Hw]).
  unfold Classifier.classify_bytes, ToLower. f_equal.
  rewrite strip_block_plain, strip_line_plain by exact Hplain.
  destruct (list_ascii_of_string w) as [|c0 w0] eqn:Hbytes.
  { destruct w; [contradiction | discriminate]. }
  assert (Hc0 : is_word c0 = true)
    by (simpl in Hw; apply andb_prop in Hw; apply Hw).
  change ((c0 :: w0) ++ ?y) with (c0 :: (w0 ++ y)).
  rewrite strip_prefix_word by exact Hc0.
  change (c0 :: (w0 ++ ?y)) with ((c0 :: w0) ++ y).
  apply leading_word_app; [exact Hw|].
  destruct tail as [|c rest]; [exact I|]. destruct Htail as [Hc Hslash].
  simpl list_ascii_of_string.
  rewrite strip_block_cons, block_comment_not_slash
    by (apply Ascii.eqb_neq, Hslash).
  apply strip_line_head, Hc.
Qed.

Lemma dbOperation_keyword_witness :
  dbOperation "Update_2-- /* x */ t SET a = 1" = "update_2".
Proof.
  apply (dbOperation_keyword "Update_2" "-- /* x */ t SET a = 1").
  - discriminate.
  - reflexivity.
  - split; [reflexivity | discriminate].
Defined.

(** X4. Whitespace and semicolons in front of a statement do not change its
    classification. *)
Theorem dbOperation_leading_separators (ws s : string) :
  forallb is_space_or_semi (bytes_of ws) = true ->
  dbOperation (String.append ws s) = dbOperation s.
Proof.
  intros Hws. rewrite !dbOperation_classify_bytes. f_equal.
  rewrite list_ascii_of_string_app. unfold bytes_of in Hws.
  assert (Hplain : forallb opens_no_comment (list_ascii_of_string ws) = true)
    by (apply (forallb_impl is_space_or_semi);
        [apply separator_opens_no_comment | exact Hws]).
  unfold Classifier.classify_bytes.
  rewrite strip_block_plain, strip_line_plain by exact Hplain.
  rewrite strip_prefix_app by exact Hws. reflexivity.
Qed.

Lemma dbOperation_leading_separators_witness :
  dbOperation (String.append " ;; " "/* c */ delete from t")
  = dbOperation "/* c */ delete from t".
Proof.
  apply (dbOperation_leading_separators " ;; " "/* c */ delete from t").
  reflexivity.
Defined.

(** X5. Block comments go first and are cut out without a trace: behind text
    that has no [/], a comment whose body has no [*/] can be dropped from
    the statement without changing the classification, wherever it stands,
    between two words or behind the [--] of a line comment as well. *)
Theorem dbOperation_block_comment (pre body s : string) :
  forallb not_slash (bytes_of pre) = true ->
  Classifier.after_close (bytes_of body) = None ->
  dbOperation
    (String.append pre
       (String.append "/*" (String.append body (String.append "*/" s))))
  = dbOperation (String.append pre s).
Proof.
  intros Hpre Hbody. rewrite !dbOperation_classify_bytes. f_equal.
  rewrite !list_ascii_of_string_app. unfold bytes_of in *.
  unfold Classifier.classify_bytes. do 4 f_equal.
  apply (strip_block_comment_at _ _ _ Hpre Hbody).
Qed.

(** The comment joins [SEL] and [ECT]; and the comment that opens behind [--]
    takes the line break and the [DROP] with it. *)
Lemma dbOperation_block_comment_witness :
  dbOperation "SEL/* c */ECT 1" = dbOperation "SELECT 1"
  /\ dbOperation (String.append "-- "
        (String.append "/*"
           (String.append (String.append " x" (String newline " DROP "))
              (String.append "*/" " SELECT 1"))))
     = dbOperation "--  SELECT 1".
Proof.
  split.
  - apply (dbOperation_block_comment "SEL" " c " "ECT 1"); reflexivity.
  - apply (dbOperation_block_comment "-- "
             (String.append " x" (String newline " DROP ")) " SELECT 1");
      reflexivity.
Defined.

(** X6. A line comment in front of a statement, from [--] or [#] to the end
    of its line, does not change the classification, as long as it holds no
    [/]. *)
Theorem dbOperation_leading_line_comment (body s : string) :
  forallb not_newline (bytes_of body) = true ->
  forallb not_slash (bytes_of body) = true ->
  dbOperation (String.append "--" (String.append body (String newline s)))
  = dbOperation s
  /\ dbOperation (String.append "#" (String.append body (String newline s)))
     = dbOperation s.
Proof.
  intros Hline Hslash. unfold bytes_of in *.
  assert (Hcut : forall x,
             Classifier.to_end_of_line (list_ascii_of_string body ++ newline :: x)
             = newline :: x).
  { intros x. apply to_end_of_line_app, Hline. }
  assert (Hblock : forall start,
             forallb not_slash start = true ->
             Classifier.strip_block_comments
               (start ++ list_ascii_of_string body
                  ++ newline :: list_ascii_of_string s)
             = start ++ list_ascii_of_string body
                 ++ newline :: Classifier.strip_block_comments
                                 (list_ascii_of_string s)).
  { intros start Hstart.
    change (newline :: ?x) with ([newline] ++ x).
    rewrite !app_assoc. apply strip_block_no_slash.
    rewrite !forallb_app, Hstart, Hslash. reflexivity. }
  split; rewrite !dbOperation_classify_bytes; f_equal;
    rewrite !list_ascii_of_string_app; unfold Classifier.classify_bytes;
    do 2 f_equal; simpl list_ascii_of_string.
  - rewrite (Hblock ["-"%char; "-"%char] eq_refl). simpl app.
    rewrite strip_line_cons. simpl Classifier.line_comment_start. cbv iota.
    change (Classifier.to_end_of_line ("-"%char :: ?y))
      with (Classifier.to_end_of_line y).
    rewrite Hcut, strip_line_newline. reflexivity.
  - rewrite (Hblock ["#"%char] eq_refl). simpl app.
    rewrite strip_line_cons. simpl Classifier.line_comment_start. cbv iota.
    rewrite Hcut, strip_line_newline. reflexivity.
Qed.

Lemma dbOperation_leading_line_comment_witness :
  dbOperation (String.append "--" (String.append " first # note"
                                     (String newline "INSERT INTO t")))
  = dbOperation "INSERT INTO t".
Proof.
  apply (dbOperation_leading_line_comment " first # note" "INSERT INTO t");
    reflexivity.
Defined.

(** ** The hooks, one after the other *)

Section HookFacts.

Lemma attachments_no_begin_no_close evs :
  forallb is_attachment evs = true -> begun evs = [] /\ closed evs = [].
Proof.
  induction evs as [|ev evs IH]; [split; reflexivity|]. simpl.
  intros H. apply andb_prop in H as [Hev Hevs].
  destruct ev; try discriminate; apply IH, Hevs.
Qed.

Lemma annotations_attachments tx seg formatted :
  forallb is_attachment (annotations tx seg formatted) = true.
Proof.
  unfold annotations.
  destruct (decide (Table (Statement tx) = ""));
    destruct (decide (RowsAffected (Statement tx) = (-1)%Z));
    destruct (Error tx) as [[]|]; reflexivity.
Qed.

(** The body of the after hook only attaches. *)
Lemma annotate_attaches p tx seg s :
  exists done,
    snd (annotate p tx seg s) = appended done s
    /\ forallb is_attachment done = true.
Proof.
  rewrite annotate_attach_list, bind_run. unfold call.
  destruct (renderQuery p tx) as [query|reason].
  2:{ exists []. rewrite appended_nil. split; reflexivity. }
  rewrite bind_run.
  destruct (formatQuery p query) as [formatted|reason].
  2:{ exists []. rewrite appended_nil. split; reflexivity. }
  destruct (attach_list_run (annotations tx seg formatted) s)
    as (done & Hs & [rest Hrest] & _).
  exists done. split; [exact Hs|].
  pose proof (annotations_attachments tx seg formatted) as H.
  rewrite Hrest, forallb_app in H. apply andb_prop in H. apply H.
Qed.

Lemma after_attaches_then_closes p s seg :
  attached_span s = Some (VSegment (Some seg)) ->
  exists done,
    snd (after p s) = appended (done ++ [EvClose seg None]) s
    /\ forallb is_attachment done = true.
Proof.
  intros H. rewrite (after_attached p s seg H). cbn [snd].
  destruct (annotate_attaches p (st_tx s) seg s) as (done & Hs & Hdone).
  exists done. rewrite Hs, appended_app. split; [reflexivity | exact Hdone].
Qed.

Lemma begun_app evs1 evs2 : begun (evs1 ++ evs2) = begun evs1 ++ begun evs2.
Proof.
  induction evs1 as [|[] evs1 IH]; simpl; rewrite ?IH; reflexivity.
Qed.

(** The before hook, step by step. *)
Lemma before_run p spanName s :
  let ctx := Context_ (Statement (st_tx s)) in
  let n := xr_next (st_xray s) in
  let seg := match GetSegment ctx with None => S n | Some _ => n end in
  let opened :=
    match GetSegment ctx with
    | None => [EvBeginSegment n "FallbackParent";
               EvBeginSubsegment (S n) n spanName]
    | Some parent => [EvBeginSubsegment n parent spanName]
    end in
  before p spanName s =
  (Ret tt,
   {| st_tx :=
        {| Statement :=
             {| Context_ := WithSegment ctx seg;
                SQL := SQL (Statement (st_tx s));
                Vars := Vars (Statement (st_tx s));
                Table := Table (Statement (st_tx s));
                RowsAffected := RowsAffected (Statement (st_tx s));
                Settings := <[xray_subsegment := VSegment (Some seg)]>
                              (Settings (Statement (st_tx s))) |};
           Error := Error (st_tx s);
           dialector := dialector (st_tx s) |};
      st_xray := {| xr_next := S seg;
                    xr_log := xr_log (st_xray s) ++ opened;
                    xr_faults := xr_faults (st_xray s) |} |}).
Proof.
  destruct s as [[[ctx sql vars table rows settings] err d] [next log faults]].
  destruct ctx as [[parent|] values];
    cbv [before mbind M_bind mret M_ret get_tx BeginSegment BeginSubsegment
         set_Context InstanceSet GetSegment WithSegment record fresh];
    cbn -[xray_subsegment]; rewrite <- ?app_assoc; reflexivity.
Qed.

Lemma attached_after_before p spanName s :
  attached_span (snd (before p spanName s))
  = Some (VSegment (Some (match GetSegment (Context_ (Statement (st_tx s))) with
                          | None => S (xr_next (st_xray s))
                          | Some _ => xr_next (st_xray s)
                          end))).
Proof.
  rewrite before_run. unfold attached_span. cbn -[xray_subsegment].
  apply lookup_insert_eq.
Qed.

(** What the after hook does depends on the instance through the text it
    renders and through the table, the row count and the error only. *)
Lemma annotate_same_inputs p tx1 tx2 seg s1 s2 :
  st_xray s1 = st_xray s2 ->
  renderQuery p tx1 = renderQuery p tx2 ->
  Table (Statement tx1) = Table (Statement tx2) ->
  RowsAffected (Statement tx1) = RowsAffected (Statement tx2) ->
  Error tx1 = Error tx2 ->
  fst (annotate p tx1 seg s1) = fst (annotate p tx2 seg s2)
  /\ st_xray (snd (annotate p tx1 seg s1)) = st_xray (snd (annotate p tx2 seg s2)).
Proof.
  intros Hx Hq Ht Hr He. rewrite !annotate_attach_list, !bind_run. unfold call.
  rewrite Hq. destruct (renderQuery p tx2) as [query|reason].
  2:{ split; [reflexivity | exact Hx]. }
  rewrite !bind_run. destruct (formatQuery p query) as [formatted|reason].
  2:{ split; [reflexivity | exact Hx]. }
  assert (Hann : annotations tx1 seg formatted = annotations tx2 seg formatted)
    by (unfold annotations; rewrite Ht, Hr, He; reflexivity).
  rewrite Hann. apply attach_list_xray, Hx.
Qed.

End HookFacts.

(** X7. Before hook, operation, after hook: whatever the host makes of the
    instance in between, as long as it keeps the entry of the side-channel,
    the after hook closes the subsegment the before hook began and nothing
    else.  A [FallbackParent] segment begun on the way is never closed. *)
Theorem before_then_after (p : Plugin) (spanName : string) (s : State) (tx2 : DB) :
  let s1 := snd (before p spanName s) in
  let ctx := Context_ (Statement (st_tx s)) in
  let n := xr_next (st_xray s) in
  Settings (Statement tx2) !! xray_subsegment = attached_span s1 ->
  let evs := new_events s (snd (after p (executed tx2 s1))) in
  begun evs = match GetSegment ctx with None => [n; S n] | Some _ => [n] end
  /\ closed evs = [match GetSegment ctx with None => S n | Some _ => n end].
Proof.
  intros s1 ctx n Hkeep evs.
  assert (Hatt : attached_span (executed tx2 s1)
                 = Some (VSegment (Some (match GetSegment ctx with
                                         | None => S n | Some _ => n end)))).
  { unfold attached_span at 1. cbn [executed st_tx]. rewrite Hkeep.
    apply attached_after_before. }
  destruct (after_attaches_then_closes p _ _ Hatt) as (done & Hs & Hdone).
  destruct (attachments_no_begin_no_close done Hdone) as [Hb Hc].
  unfold evs, new_events. rewrite Hs. unfold s1. rewrite before_run.
  cbn [appended executed st_xray xr_log snd].
  rewrite <- app_assoc, drop_app_length.
  rewrite !begun_app, !closed_app, Hb, Hc. fold ctx n.
  destruct (GetSegment ctx); split; reflexivity.
Qed.

(** The host runs the query, sets the error and the row count; no segment
    was in the context: segment 5 is the fallback, subsegment 6 the span. *)
Lemma before_then_after_witness :
  begun (new_events Sample.fresh_instance
           (snd (after Sample.plain
                   (executed Scenario.ran
                      (snd (before Sample.plain "gorm.Raw" Sample.fresh_instance))))))
  = [5; 6]
  /\ closed (new_events Sample.fresh_instance
               (snd (after Sample.plain
                       (executed Scenario.ran
                          (snd (before Sample.plain "gorm.Raw"
                                  Sample.fresh_instance))))))
     = [6].
Proof.
  apply (before_then_after Sample.plain "gorm.Raw" Sample.fresh_instance
           Scenario.ran).
  reflexivity.
Defined.

(** X8. The after hook never changes the operation instance: statement,
    context, side-channel and error are as the host left them, whether the
    hook returns or panics. *)
Theorem after_leaves_instance (p : Plugin) (s : State) :
  st_tx (snd (after p s)) = st_tx s.
Proof.
  destruct (attached_span s) as [[[seg|]| | |]|] eqn:H.
  1:{ destruct (after_attaches_then_closes p s seg H) as (done & -> & _).
      reflexivity. }
  all: rewrite after_not_attached; [reflexivity|];
    intros seg; rewrite H; discriminate.
Qed.

(** X9. The after hook leaves the span in the side-channel: run once more on
    the same instance it closes the same span a second time. *)
Theorem after_twice_closes_twice (p : Plugin) (s : State) (seg : nat) :
  attached_span s = Some (VSegment (Some seg)) ->
  closed (new_events s (snd (after p (snd (after p s))))) = [seg; seg].
Proof.
  intros H.
  destruct (after_attaches_then_closes p s seg H) as (done1 & Hs1 & Hdone1).
  assert (H1 : attached_span (snd (after p s)) = Some (VSegment (Some seg))).
  { unfold attached_span. rewrite Hs1. exact H. }
  destruct (after_attaches_then_closes p _ seg H1) as (done2 & Hs2 & Hdone2).
  rewrite Hs2, Hs1, appended_app, new_events_appended.
  rewrite !closed_app.
  destruct (attachments_no_begin_no_close done1 Hdone1) as [_ ->].
  destruct (attachments_no_begin_no_close done2 Hdone2) as [_ ->].
  reflexivity.
Qed.

Lemma after_twice_closes_twice_witness :
  closed (new_events (Sample.started None)
            (snd (after Sample.plain
                    (snd (after Sample.plain (Sample.started None))))))
  = [4; 4].
Proof.
  apply (after_twice_closes_twice Sample.plain (Sample.started None) 4).
  reflexivity.
Defined.

(** X10. When the dialector or the formatter panics, the after hook attaches
    nothing, closes the span and panics with the same reason. *)
Theorem after_panic_in_rendering (p : Plugin) (s : State) (seg : nat)
    (reason : string) :
  attached_span s = Some (VSegment (Some seg)) ->
  (renderQuery p (st_tx s) = Panic reason
   \/ exists query,
        renderQuery p (st_tx s) = Ret query
        /\ formatQuery p query = Panic reason) ->
  after p s = (Panic reason, appended [EvClose seg None] s).
Proof.
  intros H Hpanic. rewrite (after_attached p s seg H).
  rewrite annotate_attach_list, bind_run. unfold call.
  destruct Hpanic as [-> | (query & -> & Hf)]; [reflexivity|].
  rewrite bind_run, Hf. reflexivity.
Qed.

Lemma after_panic_in_rendering_witness :
  after Sample.plain Scenario.unrenderable
  = (Panic "explain", appended [EvClose 4 None] Scenario.unrenderable).
Proof.
  apply (after_panic_in_rendering Sample.plain Scenario.unrenderable 4 "explain").
  - reflexivity.
  - left. reflexivity.
Defined.

(** X11. The after hook reads the side-channel entry, the SQL, the bound
    parameters, the dialector, the table, the row count and the error of the
    instance, and nothing else: the context and the other settings have no
    influence on what it returns and records. *)
Theorem after_reads_only (p : Plugin) (s1 s2 : State) :
  st_xray s1 = st_xray s2 ->
  attached_span s1 = attached_span s2 ->
  SQL (Statement (st_tx s1)) = SQL (Statement (st_tx s2)) ->
  Vars (Statement (st_tx s1)) = Vars (Statement (st_tx s2)) ->
  dialector (st_tx s1) = dialector (st_tx s2) ->
  Table (Statement (st_tx s1)) = Table (Statement (st_tx s2)) ->
  RowsAffected (Statement (st_tx s1)) = RowsAffected (Statement (st_tx s2)) ->
  Error (st_tx s1) = Error (st_tx s2) ->
  fst (after p s1) = fst (after p s2)
  /\ st_xray (snd (after p s1)) = st_xray (snd (after p s2)).
Proof.
  intros Hx Hatt Hsql Hvars Hd Ht Hr He.
  destruct (attached_span s2) as [[[seg|]| | |]|] eqn:H2.
  1:{ rewrite (after_attached p s1 seg Hatt), (after_attached p s2 seg H2).
      destruct (annotate_same_inputs p (st_tx s1) (st_tx s2) seg s1 s2)
        as [Hfst Hsnd]; try assumption.
      { unfold renderQuery. rewrite Hsql, Hvars, Hd. reflexivity. }
      cbn [fst snd]. split; [exact Hfst|].
      unfold appended. cbn [st_xray]. rewrite Hsnd. reflexivity. }
  all: rewrite !after_not_attached;
    [split; [reflexivity | exact Hx] | |];
    intros seg; rewrite ?Hatt, ?H2; discriminate.
Qed.

Lemma after_reads_only_witness :
  fst (after Sample.redacting (Sample.started None))
  = fst (after Sample.redacting Scenario.elsewhere)
  /\ st_xray (snd (after Sample.redacting (Sample.started None)))
     = st_xray (snd (after Sample.redacting Scenario.elsewhere)).
Proof.
  apply (after_reads_only Sample.redacting (Sample.started None)
           Scenario.elsewhere);
    reflexivity.
Defined.

(** X12. A before hook on an instance that a before hook has already
    prepared begins a subsegment under the span of the first and puts it in
    its place in the side-channel: spans nest through the context, and the
    after hook will find the inner one only. *)
Theorem before_nests (p : Plugin) (outer inner : string) (s : State) :
  let s1 := snd (before p outer s) in
  let seg :=
    match GetSegment (Context_ (Statement (st_tx s))) with
    | None => S (xr_next (st_xray s))
    | Some _ => xr_next (st_xray s)
    end in
  new_events s1 (snd (before p inner s1)) = [EvBeginSubsegment (S seg) seg inner]
  /\ attached_span (snd (before p inner s1)) = Some (VSegment (Some (S seg))).
Proof.
  intros s1 seg. split.
  - unfold new_events. rewrite (before_run p inner s1).
    unfold s1. rewrite (before_run p outer s). cbn -[xray_subsegment].
    rewrite drop_app_length. reflexivity.
  - rewrite attached_after_before. unfold s1.
    rewrite (before_run p outer s). reflexivity.
Qed.

(** ** Construction and registration *)

Section ConstructionFacts.

Lemma Initialize_loop_log hs st :
  init_log (Initialize_loop hs st) =
  init_log st ++
  match firstErr st with
  | Some _ => []
  | None => first_failure_log (fst (register_each hs (init_db st)))
  end.
Proof.
  revert st. induction hs as [|h hs IH]; intros st.
  - simpl. destruct (firstErr st); rewrite app_nil_r; reflexivity.
  - cbn [Initialize_loop fold_left register_each].
    fold (Initialize_loop hs (Initialize_step st h)).
    rewrite IH. unfold Initialize_step.
    destruct (Register (hook_callback h) (String.append "xray:" (hook_name h))
                (hook_fn h) (init_db st)) as [err db1].
    destruct (register_each hs db1) as [rest db2] eqn:Hrest.
    destruct err as [e|], (firstErr st) as [e0|]; cbn; rewrite ?Hrest;
      rewrite <- ?app_assoc, ?app_nil_r; reflexivity.
Qed.

Lemma Initialize_loop_log_fresh hs db :
  init_log (Initialize_loop hs {| firstErr := None; init_db := db; init_log := [] |})
  = first_failure_log (fst (register_each hs db)).
Proof.
  exact (Initialize_loop_log hs
           {| firstErr := None; init_db := db; init_log := [] |}).
Qed.

Lemma first_failure_log_shape calls :
  (first_failure calls = None /\ first_failure_log calls = [])
  \/ exists h e,
       In (h, Some e) calls
       /\ first_failure calls = Some (register_failed (hook_name h) e)
       /\ first_failure_log calls = [register_log_line (hook_name h) e].
Proof.
  induction calls as [|[h [e|]] calls IH].
  - left. split; reflexivity.
  - right. exists h, e. simpl. auto.
  - destruct IH as [IH | (h' & e' & Hin & IH)]; [left; exact IH|].
    right. exists h', e'. simpl. split; [right; exact Hin | exact IH].
Qed.

End ConstructionFacts.

(** X13. [NewPlugin] applies its options in order: the last option on a field
    decides it, and an option on one field leaves the other fields as the
    options before it made them. *)
Theorem NewPlugin_last_option_wins (opts : list Option) :
  (forall exclude,
      let p := NewPlugin (opts ++ [WithExcludeQueryVars exclude]) in
      excludeQueryVars p = exclude
      /\ queryFormatter p = queryFormatter (NewPlugin opts)
      /\ excludeMetrics p = excludeMetrics (NewPlugin opts))
  /\ (forall formatter,
        let p := NewPlugin (opts ++ [WithQueryFormatter formatter]) in
        queryFormatter p = formatter
        /\ excludeQueryVars p = excludeQueryVars (NewPlugin opts)
        /\ excludeMetrics p = excludeMetrics (NewPlugin opts)).
Proof.
  split; intros x p; unfold p, NewPlugin; rewrite fold_left_app;
    repeat split; reflexivity.
Qed.

(** X14. [Initialize] logs at most one line: none when it returns nil, and
    otherwise the line of the very call whose failure it returns; the calls
    that fail later are neither returned nor logged. *)
Theorem Initialize_logs_first_failure (p : Plugin) (db : Host) :
  let calls := fst (register_each (hooks p) db) in
  (firstErr (Initialize p db) = None /\ init_log (Initialize p db) = [])
  \/ exists h e,
       In (h, Some e) calls
       /\ firstErr (Initialize p db) = Some (register_failed (hook_name h) e)
       /\ init_log (Initialize p db) = [register_log_line (hook_name h) e].
Proof.
  intros calls.
  destruct (Initialize_run p db) as [Herr _].
  assert (Hlog : init_log (Initialize p db) = first_failure_log calls)
    by (unfold Initialize; apply Initialize_loop_log_fresh).
  rewrite Herr, Hlog. apply first_failure_log_shape.
Qed.

(** X15. For every operation kind [Initialize] appends two callbacks to the
    processor of that kind, behind those it had: the before hook, placed
    before the name [gorm:<kind>], then the after hook, placed after that
    same name.  The handler registered first begins a subsegment named
    [gorm.<Kind>], and the handler registered second, run on the instance
    the host leaves with the side-channel entry kept, closes that
    subsegment and nothing else. *)
Theorem Initialize_brackets_each_kind (p : Plugin) (db : Host) (k : processor)
    (s : State) (tx2 : DB) :
  let ctx := Context_ (Statement (st_tx s)) in
  let n := xr_next (st_xray s) in
  let s1 := snd (cb_handler (before_callback p k) s) in
  host_callbacks (init_db (Initialize p db)) k
  = host_callbacks db k ++ [before_callback p k; after_callback p k]
  /\ cb_position (before_callback p k) = Before (kind_anchor k)
  /\ cb_position (after_callback p k) = After (kind_anchor k)
  /\ new_events s s1 =
     match GetSegment ctx with
     | None => [EvBeginSegment n "FallbackParent";
                EvBeginSubsegment (S n) n (kind_span k)]
     | Some parent => [EvBeginSubsegment n parent (kind_span k)]
     end
  /\ (Settings (Statement tx2) !! xray_subsegment = attached_span s1 ->
      closed (new_events s1
                (snd (cb_handler (after_callback p k) (executed tx2 s1))))
      = [match GetSegment ctx with None => S n | Some _ => n end]).
Proof.
  intros ctx n s1. split; [apply Initialize_callbacks|].
  split; [reflexivity|]. split; [reflexivity|].
  cbn [cb_handler before_callback after_callback] in *. split.
  - unfold s1, new_events. rewrite before_run. cbn [snd st_xray xr_log].
    apply drop_app_length.
  - intros Hkeep.
    assert (Hatt : attached_span (executed tx2 s1)
                   = Some (VSegment (Some (match GetSegment ctx with
                                           | None => S n | Some _ => n end)))).
    { unfold attached_span at 1. cbn [executed st_tx]. rewrite Hkeep.
      apply attached_after_before. }
    destruct (after_attaches_then_closes p _ _ Hatt) as (done & Hs & Hdone).
    destruct (attachments_no_begin_no_close done Hdone) as [_ Hc].
    rewrite Hs. unfold new_events. cbn [appended executed st_xray xr_log].
    rewrite drop_app_length, closed_app, Hc. reflexivity.
Qed.

Lemma Initialize_brackets_each_kind_witness :
  Settings (Statement Scenario.ran) !! xray_subsegment
  = attached_span
      (snd (cb_handler (before_callback Sample.plain Raw) Sample.fresh_instance))
  /\ closed
       (new_events
          (snd (cb_handler (before_callback Sample.plain Raw) Sample.fresh_instance))
          (snd (cb_handler (after_callback Sample.plain Raw)
                  (executed Scenario.ran
                     (snd (cb_handler (before_callback Sample.plain Raw)
                             Sample.fresh_instance))))))
     = [6].
Proof.
  split; [reflexivity|].
  apply (Initialize_brackets_each_kind Sample.plain (Sample.host []) Raw
           Sample.fresh_instance Scenario.ran).
  reflexivity.
Defined.

(** X16. A statement that, behind its leading whitespace and semicolons, is
    over or starts with a byte that is no word byte and opens no comment has
    no keyword: [dbOperation] returns the empty string, as for a query in
    parentheses or a block comment that is never closed. *)
Theorem dbOperation_no_keyword (ws tail : string) :
  forallb is_space_or_semi (bytes_of ws) = true ->
  match tail with
  | EmptyString => True
  | String c _ =>
      is_word c = false /\ is_space_or_semi c = false
      /\ c <> "#"%char /\ c <> "-"%char
      /\ Classifier.block_comment (bytes_of tail) = None
  end ->
  dbOperation (String.append ws tail) = "".
Proof.
  intros Hws Htail.
  assert (Hsep : dbOperation (String.append ws tail) = dbOperation tail).
  { rewrite !dbOperation_classify_bytes. f_equal.
    rewrite list_ascii_of_string_app. unfold bytes_of in Hws.
    unfold Classifier.classify_bytes.
    rewrite strip_block_plain, strip_line_plain
      by (apply (forallb_impl is_space_or_semi);
          [apply separator_opens_no_comment | exact Hws]).
    rewrite strip_prefix_app by exact Hws. reflexivity. }
  rewrite Hsep. destruct tail as [|c rest]; [reflexivity|].
  destruct Htail as (Hword & Hnosep & Hhash & Hdash & Hblock).
  rewrite dbOperation_classify_bytes. unfold bytes_of in *.
  unfold Classifier.classify_bytes. simpl list_ascii_of_string in *.
  rewrite strip_block_cons, Hblock, strip_line_cons.
  assert (Hstart : forall x, Classifier.line_comment_start (c :: x) = false).
  { intros x. unfold Classifier.line_comment_start.
    apply Ascii.eqb_neq in Hhash, Hdash. rewrite Hhash, Hdash.
    destruct x; reflexivity. }
  rewrite Hstart. simpl. rewrite Hnosep. simpl. rewrite Hword. reflexivity.
Qed.

Lemma dbOperation_no_keyword_witness :
  dbOperation " ;(SELECT 1) UNION (SELECT 2)" = ""
  /\ dbOperation "/* never closed SELECT 1" = "".
Proof.
  split.
  - apply (dbOperation_no_keyword " ;" "(SELECT 1) UNION (SELECT 2)");
      [reflexivity | repeat split; (reflexivity || discriminate)].
  - apply (dbOperation_no_keyword "" "/* never closed SELECT 1");
      [reflexivity | repeat split; (reflexivity || discriminate)].
Defined.
